(** * Host arbitration, relay and upload buffering of the multi-user product viewer server

    Shallow embedding of the socket and upload handlers of the Node server
    ([src/unnamed/part_001]).  The process-wide variables [hostSocketId],
    [pendingRequests] and [hostUploadBuffers] become fields of a [state];
    every handler is a function from the state and the event arguments to
    the new state and the list of emissions it performs.  The Node timer
    queue is part of the state as well ([timers]), so that [setTimeout] and
    [clearTimeout] are explicit, and a timer callback only runs through a
    [TimerFire] event for a handle that is still active. *)

From Stdlib Require Import String Ascii List NArith ZArith Bool Lia Permutation.
Set Warnings "-register-all".

Import ListNotations.
Open Scope string_scope.
Open Scope list_scope.

(** ** Data *)

(** Socket ids and request ids are JavaScript strings. *)
Abbreviation conn := string (only parsing).
Abbreviation request_id := string (only parsing).

(** Client payloads relayed verbatim (JSON values). *)
Inductive json : Type :=
| JNull
| JBool (b : bool)
| JNum (z : Z)
| JStr (s : string)
| JArr (l : list json)
| JObj (l : list (string * json)).

(** An entry of [hostUploadBuffers[uploaderId]]:
    [{ url, name, id, sender }]. *)
Record part := mkPart {
  part_url : string;
  part_name : string;
  part_id : string;
  part_sender : conn
}.

Definition part_json (p : part) : json :=
  JObj [("url", JStr (part_url p)); ("name", JStr (part_name p));
        ("id", JStr (part_id p)); ("sender", JStr (part_sender p))].

(** A value of [pendingRequests]: [{ timeout: TimeoutObject, requester }]. *)
Record pending := mkPending {
  pr_timeout : N;
  pr_requester : conn
}.

(** An active timer of the event loop: its due time and the closure of the
    [request-host] handler, which captures [socket.id] and [requestId]. *)
Record timer := mkTimer {
  tm_due : N;
  tm_requester : conn;
  tm_request : request_id
}.

Record state := mkState {
  hostSocketId : option conn;                       (* null / undefined = None *)
  pendingRequests : list (request_id * pending);    (* JS object, insertion order *)
  hostUploadBuffers : list (conn * list part);      (* JS object, insertion order *)
  timers : list (N * timer);                        (* active setTimeout handles *)
  next_timer : N;                                   (* next handle setTimeout returns *)
  uuid_seed : N;                                    (* state of the uuidv4 supply *)
  now : N;                                          (* event-loop clock, in ms *)
  sockets : list conn                               (* connected sockets *)
}.

Definition init_state : state :=
  mkState None [] [] [] 0 0 0 [].

(** ** JavaScript objects used as maps

    A plain object literal [{}] inherits from [Object.prototype]: reading
    one of these names finds an inherited (function or object) value,
    which is truthy. *)
Definition object_prototype_props : list string :=
  ["constructor"; "__proto__"; "hasOwnProperty"; "isPrototypeOf";
   "propertyIsEnumerable"; "toLocaleString"; "toString"; "valueOf";
   "__defineGetter__"; "__defineSetter__"; "__lookupGetter__"; "__lookupSetter__"].

Definition is_proto_prop (k : string) : bool :=
  existsb (String.eqb k) object_prototype_props.

Fixpoint assoc {V} (k : string) (l : list (string * V)) : option V :=
  match l with
  | [] => None
  | (k', v) :: l' => if String.eqb k' k then Some v else assoc k l'
  end.

(** Result of the property read [obj[k]]. *)
Inductive prop (V : Type) : Type :=
| Own (v : V)
| Inherited (name : string)
| Absent.
Arguments Own {V} v.
Arguments Inherited {V} name.
Arguments Absent {V}.

Definition js_get {V} (o : list (string * V)) (k : string) : prop V :=
  match assoc k o with
  | Some v => Own v
  | None => if is_proto_prop k then Inherited k else Absent
  end.

(** [obj[k] = v]: an existing own key keeps its place, a new key goes last. *)
Fixpoint js_set {V} (k : string) (v : V) (o : list (string * V)) : list (string * V) :=
  match o with
  | [] => [(k, v)]
  | (k', v') :: o' => if String.eqb k' k then (k, v) :: o' else (k', v') :: js_set k v o'
  end.

(** [delete obj[k]]. *)
Definition js_delete {V} (k : string) (o : list (string * V)) : list (string * V) :=
  filter (fun kv => negb (String.eqb (fst kv) k)) o.

(** JavaScript truthiness of [hostSocketId] (null, undefined and "" are falsy). *)
Definition js_truthy (o : option string) : bool :=
  match o with
  | Some s => negb (String.eqb s "")
  | None => false
  end.

(** [hostSocketId === socket.id]. *)
Definition is_host (h : option conn) (c : conn) : bool :=
  match h with
  | Some x => String.eqb x c
  | None => false
  end.

(** ** uuidv4 as a fresh-token supply

    Every call returns a token never returned before; the model draws the
    n-th token from an injective encoding of n. *)
Fixpoint pos_digits (p : positive) : string :=
  match p with
  | xH => "1"
  | xO q => String "0"%char (pos_digits q)
  | xI q => String "1"%char (pos_digits q)
  end.

Definition uuidv4 (n : N) : string :=
  String "u"%char (pos_digits (N.succ_pos n)).

(** ** Timers *)

(** [clearTimeout(h)]: the handle is removed from the active timers. *)
Definition clearTimeout (h : N) (tms : list (N * timer)) : list (N * timer) :=
  filter (fun ht => negb (N.eqb (fst ht) h)) tms.

Fixpoint assocN {V} (k : N) (l : list (N * V)) : option V :=
  match l with
  | [] => None
  | (k', v) :: l' => if N.eqb k' k then Some v else assocN k l'
  end.

Definition TIMEOUT_MS : N := 30000.

(** ** Emissions *)

Inductive target : Type :=
| ToAll                         (* io.emit *)
| ToAllExcept (c : conn)        (* socket.broadcast.emit *)
| ToRoom (r : option conn).     (* io.to(r).emit *)

Inductive relay_kind : Type :=
| ModelTransform | CameraUpdate | ResetAll | HostPointerToggle | HostPointerUpdate.

Inductive message : Type :=
| HostChanged (h : option conn)
| HostTransferRequest (rid : request_id) (requester : conn)
| TransferDenied (rid : request_id)
| HostRequestCancelled (rid : request_id)
| Relayed (k : relay_kind) (payload : json)
| ProductUploadComplete (parts : json) (sender : conn).

Definition emission := (target * message)%type.

(** Every socket is in the room named by its id; [io.to(undefined)] reaches
    nobody. *)
Definition recipients (socks : list conn) (t : target) : list conn :=
  match t with
  | ToAll => socks
  | ToAllExcept c => filter (fun x => negb (String.eqb x c)) socks
  | ToRoom (Some r) => filter (fun x => String.eqb x r) socks
  | ToRoom None => []
  end.

(** ** State updates *)

Definition set_host (h : option conn) (s : state) : state :=
  mkState h (pendingRequests s) (hostUploadBuffers s) (timers s)
          (next_timer s) (uuid_seed s) (now s) (sockets s).

Definition set_buffers (b : list (conn * list part)) (s : state) : state :=
  mkState (hostSocketId s) (pendingRequests s) b (timers s)
          (next_timer s) (uuid_seed s) (now s) (sockets s).

Definition set_requests (p : list (request_id * pending)) (tms : list (N * timer))
    (s : state) : state :=
  mkState (hostSocketId s) p (hostUploadBuffers s) tms
          (next_timer s) (uuid_seed s) (now s) (sockets s).

(** ** Socket handlers (one per [socket.on(...)]) *)

(** [register-host] *)
Definition register_host (s : state) (c : conn) : state * list emission :=
  (set_host (Some c) s, [(ToAll, HostChanged (Some c))]).

(** [request-host] *)
Definition request_host (s : state) (c : conn) : state * list emission :=
  if negb (js_truthy (hostSocketId s)) then
    (set_host (Some c) s, [(ToAll, HostChanged (Some c))])
  else if is_host (hostSocketId s) c then
    (s, [])
  else
    let requestId := uuidv4 (uuid_seed s) in
    let timeout := next_timer s in
    (mkState (hostSocketId s)
             (js_set requestId (mkPending timeout c) (pendingRequests s))
             (hostUploadBuffers s)
             (timers s ++ [(timeout, mkTimer (now s + TIMEOUT_MS) c requestId)])
             (N.succ timeout) (N.succ (uuid_seed s)) (now s) (sockets s),
     [(ToRoom (hostSocketId s), HostTransferRequest requestId c)]).

(** The callback of the [setTimeout] in [request-host]. *)
Definition auto_transfer (s : state) (h : N) (tm : timer) : state * list emission :=
  (mkState (Some (tm_requester tm))
           (js_delete (tm_request tm) (pendingRequests s))
           (hostUploadBuffers s) (clearTimeout h (timers s))
           (next_timer s) (uuid_seed s) (now s) (sockets s),
   [(ToAll, HostChanged (Some (tm_requester tm)))]).

(** [release-host]: on an inherited property, [timeout] and [requester]
    are [undefined]; [clearTimeout(undefined)] and deleting an inherited
    name change nothing. *)
Definition release_host (s : state) (requestId : string) : state * list emission :=
  match js_get (pendingRequests s) requestId with
  | Own p =>
      (mkState (Some (pr_requester p)) (js_delete requestId (pendingRequests s))
               (hostUploadBuffers s) (clearTimeout (pr_timeout p) (timers s))
               (next_timer s) (uuid_seed s) (now s) (sockets s),
       [(ToAll, HostChanged (Some (pr_requester p)))])
  | Inherited _ => (set_host None s, [(ToAll, HostChanged None)])
  | Absent => (s, [])
  end.

(** [deny-host] *)
Definition deny_host (s : state) (requestId : string) : state * list emission :=
  match js_get (pendingRequests s) requestId with
  | Own p =>
      (set_requests (js_delete requestId (pendingRequests s))
                    (clearTimeout (pr_timeout p) (timers s)) s,
       [(ToRoom (Some (pr_requester p)), TransferDenied requestId)])
  | Inherited _ => (s, [(ToRoom None, TransferDenied requestId)])
  | Absent => (s, [])
  end.

(** The [for (const reqId in pendingRequests)] loop of [cancel-host-request]:
    the body deletes only the current key, so iterating over the entries
    present when the loop starts visits the same keys with the same values. *)
Fixpoint cancel_loop (c : conn) (host : option conn) (entries : list (request_id * pending))
    (pr : list (request_id * pending)) (tms : list (N * timer))
    : list (request_id * pending) * list (N * timer) * list emission :=
  match entries with
  | [] => (pr, tms, [])
  | (reqId, p) :: rest =>
      if String.eqb (pr_requester p) c then
        let '(pr', tms', out) :=
          cancel_loop c host rest (js_delete reqId pr) (clearTimeout (pr_timeout p) tms) in
        (pr', tms',
         (if js_truthy host then [(ToRoom host, HostRequestCancelled reqId)] else []) ++ out)
      else cancel_loop c host rest pr tms
  end.

(** [cancel-host-request] *)
Definition cancel_host_request (s : state) (c : conn) : state * list emission :=
  let '(pr, tms, out) :=
    cancel_loop c (hostSocketId s) (pendingRequests s) (pendingRequests s) (timers s) in
  (set_requests pr tms s, out).

(** [give-up-host] *)
Definition give_up_host (s : state) (c : conn) : state * list emission :=
  if is_host (hostSocketId s) c then (set_host None s, [(ToAll, HostChanged None)])
  else (s, []).

(** [model-transform], [camera-update], [reset-all] (host-gated) and
    [host-pointer-toggle], [host-pointer-update] (not gated). *)
Definition relay (s : state) (c : conn) (k : relay_kind) (payload : json)
    : state * list emission :=
  match k with
  | ModelTransform | CameraUpdate | ResetAll =>
      if is_host (hostSocketId s) c then (s, [(ToAllExcept c, Relayed k payload)])
      else (s, [])
  | HostPointerToggle | HostPointerUpdate =>
      (s, [(ToAllExcept c, Relayed k payload)])
  end.

(** [product-upload-complete].  The key is [socket.id]; socket ids are never
    [Object.prototype] names (see [valid_sid]), so the inherited branch is
    not reached from a socket. *)
Definition product_upload_complete (s : state) (c : conn) : state * list emission :=
  match js_get (hostUploadBuffers s) c with
  | Own partsBuffer =>
      if (0 <? length partsBuffer)%nat then
        (set_buffers (js_set c [] (hostUploadBuffers s)) s,
         [(ToAll, ProductUploadComplete (JArr (map part_json partsBuffer)) c)])
      else (s, [])
  | Absent => (s, [])
  | Inherited _ => (s, [])
  end.

(** [browse-selection] with [data.parts]. *)
Definition browse_selection (s : state) (c : conn) (parts : json) : state * list emission :=
  if is_host (hostSocketId s) c then
    (s, [(ToAll, ProductUploadComplete parts c)])
  else (s, []).

(** The loop of [disconnect]: same traversal as [cancel_loop], no emission. *)
Fixpoint disconnect_loop (c : conn) (entries : list (request_id * pending))
    (pr : list (request_id * pending)) (tms : list (N * timer))
    : list (request_id * pending) * list (N * timer) :=
  match entries with
  | [] => (pr, tms)
  | (reqId, p) :: rest =>
      if String.eqb (pr_requester p) c then
        disconnect_loop c rest (js_delete reqId pr) (clearTimeout (pr_timeout p) tms)
      else disconnect_loop c rest pr tms
  end.

(** [disconnect]; socket.io has already removed the socket from the
    namespace when the handler runs, so [io.emit] reaches the others. *)
Definition disconnect (s : state) (c : conn) : state * list emission :=
  let s0 := mkState (hostSocketId s) (pendingRequests s) (hostUploadBuffers s) (timers s)
                    (next_timer s) (uuid_seed s) (now s)
                    (filter (fun x => negb (String.eqb x c)) (sockets s)) in
  let '(s1, out) :=
    if is_host (hostSocketId s0) c then (set_host None s0, [(ToAll, HostChanged None)])
    else (s0, []) in
  let '(pr, tms) := disconnect_loop c (pendingRequests s1) (pendingRequests s1) (timers s1) in
  (set_requests pr tms s1, out).

(** ** The [/upload] endpoint

    [up_file] is [req.file.originalname] (multer keeps the original name as
    the stored file name), [up_base_url] is [PUBLIC_URL] or the request's
    own origin, and the two custom headers are [x-socket-id] and
    [x-uploader-role] ([None] when absent). *)
Record upload_req := mkUpload {
  up_file : option string;
  up_base_url : string;
  up_socket_id : option string;
  up_role : option string
}.

Inductive upload_response : Type :=
| UploadOk (url name : string)      (* res.json({ url, name }) *)
| Status400                         (* no file *)
| Status500.                        (* exception thrown by the handler *)

(** On an inherited property, [hostUploadBuffers[uploaderId]] is truthy and
    has no [push]; the arguments, with their [uuidv4()] call, are evaluated
    before the call throws a TypeError, which express answers with 500. *)
Definition upload (s : state) (r : upload_req) : state * upload_response :=
  match up_file r with
  | None => (s, Status400)
  | Some name =>
      let fileUrl := (up_base_url r ++ "/uploads/" ++ name)%string in
      let uploaderRole :=
        match up_role r with
        | Some x => if String.eqb x "" then "viewer" else x
        | None => "viewer"
        end in
      match up_socket_id r with
      | Some uploaderId =>
          if String.eqb uploaderRole "host" && negb (String.eqb uploaderId "") then
            let entry := mkPart fileUrl name (uuidv4 (uuid_seed s)) uploaderId in
            let s' := mkState (hostSocketId s) (pendingRequests s) (hostUploadBuffers s)
                              (timers s) (next_timer s) (N.succ (uuid_seed s)) (now s)
                              (sockets s) in
            match js_get (hostUploadBuffers s) uploaderId with
            | Own l => (set_buffers (js_set uploaderId (l ++ [entry]) (hostUploadBuffers s)) s',
                        UploadOk fileUrl name)
            | Absent => (set_buffers (js_set uploaderId [entry] (hostUploadBuffers s)) s',
                         UploadOk fileUrl name)
            | Inherited _ => (s', Status500)
            end
          else (s, UploadOk fileUrl name)
      | None => (s, UploadOk fileUrl name)
      end
  end.

(** ** The file endpoints

    The uploads directory is modelled by the names [fs.readdir] returns
    ([/list-uploads], [/delete-all-uploads]) or by the set of existing paths
    ([/delete-upload/:filename]); a failed [readdir] is [None]. *)

(** [process.env.PUBLIC_URL || `${req.protocol}://${req.get('host')}`]
    (an unset or empty [PUBLIC_URL] is falsy). *)
Definition base_url (public_url : option string) (protocol host : string) : string :=
  match public_url with
  | Some u => if String.eqb u "" then (protocol ++ "://" ++ host)%string else u
  | None => (protocol ++ "://" ++ host)%string
  end.

(** [s.endsWith(suffix)]: false when [suffix] is longer than [s], otherwise
    the last [suffix.length] characters of [s] are compared with it. *)
Definition ends_with (suffix s : string) : bool :=
  (String.length suffix <=? String.length s)%nat &&
  String.eqb (substring (String.length s - String.length suffix) (String.length suffix) s)
             suffix.

(** [file.endsWith('.glb') || file.endsWith('.gltf')] *)
Definition is_model_file (file : string) : bool :=
  ends_with ".glb" file || ends_with ".gltf" file.

(** multer's [diskStorage] with [filename: file.originalname]: the upload is
    written into [uploadDir] under its original name, replacing a file of
    that name; with no file part nothing is written.  (busboy hands multer
    only the base name of the client's file name, so the file lands directly
    in [uploadDir].) *)
Definition store_upload (dir : list string) (r : upload_req) : list string :=
  match up_file r with
  | Some name => if existsb (String.eqb name) dir then dir else dir ++ [name]
  | None => dir
  end.

(** An element of the [/list-uploads] answer: [{ name, url }]. *)
Record listed := mkListed {
  l_name : string;
  l_url : string
}.

Inductive list_response : Type :=
| ListOk (l : list listed)          (* res.json(glbFiles) *)
| List500.                          (* readdir failed *)

(** [GET /list-uploads] *)
Definition list_uploads (baseUrl : string) (readdir : option (list string)) : list_response :=
  match readdir with
  | None => List500
  | Some files =>
      ListOk (map (fun file => mkListed file (baseUrl ++ "/uploads/" ++ file)%string)
                  (filter is_model_file files))
  end.

(** *** [path.join] and [path.normalize] (POSIX), on lists of characters *)

(** The segments between the separators: "a//b" gives "a", "" and "b". *)
Fixpoint split_segs (l : list ascii) : list (list ascii) :=
  match l with
  | [] => [[]]
  | ch :: l' =>
      let r := split_segs l' in
      if Ascii.eqb ch "/"%char then [] :: r
      else match r with
           | seg :: r' => (ch :: seg) :: r'
           | [] => [[ch]]
           end
  end.

Definition seg_dot : list ascii := ["."%char].
Definition seg_dotdot : list ascii := ["."%char; "."%char].

Definition seg_eqb (a b : list ascii) : bool := String.eqb (string_of_list_ascii a) (string_of_list_ascii b).

(** [normalizeString(path, allowAboveRoot)]: the resolved segments, kept as a
    stack whose top is the last segment.  ".." removes the last segment when
    there is one that is not "..", and is kept only above the root of a
    relative path. *)
Fixpoint norm_segs (allowAboveRoot : bool) (stack : list (list ascii))
    (segs : list (list ascii)) : list (list ascii) :=
  match segs with
  | [] => stack
  | seg :: rest =>
      if seg_eqb seg [] || seg_eqb seg seg_dot then norm_segs allowAboveRoot stack rest
      else if seg_eqb seg seg_dotdot then
        match stack with
        | top :: stack' =>
            if seg_eqb top seg_dotdot then
              norm_segs allowAboveRoot (if allowAboveRoot then seg :: stack else stack) rest
            else norm_segs allowAboveRoot stack' rest
        | [] => norm_segs allowAboveRoot (if allowAboveRoot then [seg] else []) rest
        end
      else norm_segs allowAboveRoot (seg :: stack) rest
  end.

Fixpoint join_slash (segs : list (list ascii)) : list ascii :=
  match segs with
  | [] => []
  | [x] => x
  | x :: xs => x ++ "/"%char :: join_slash xs
  end.

Definition last_is_slash (l : list ascii) : bool :=
  match rev l with
  | ch :: _ => Ascii.eqb ch "/"%char
  | [] => false
  end.

(** [path.normalize] for a non-empty path. *)
Definition normalize_chars (l : list ascii) : list ascii :=
  let isAbsolute := match l with ch :: _ => Ascii.eqb ch "/"%char | [] => false end in
  let trailingSeparator := last_is_slash l in
  let body := join_slash (rev (norm_segs (negb isAbsolute) [] (split_segs l))) in
  match body with
  | [] => if isAbsolute then ["/"%char]
          else if trailingSeparator then ["."%char; "/"%char] else ["."%char]
  | _ =>
      let body' := if trailingSeparator then body ++ ["/"%char] else body in
      if isAbsolute then "/"%char :: body' else body'
  end.

(** [path.join(a, b)]: the non-empty arguments joined with "/", then
    normalized; "." when both are empty. *)
Definition path_join (a b : string) : string :=
  let joined :=
    if String.eqb a "" then b else if String.eqb b "" then a else (a ++ "/" ++ b)%string in
  if String.eqb joined "" then "."
  else string_of_list_ascii (normalize_chars (list_ascii_of_string joined)).

(** [const uploadDir = path.join(__dirname, 'uploads')] *)
Definition upload_dir (dirname : string) : string := path_join dirname "uploads".

Inductive delete_response : Type :=
| Deleted200 (filename : string)    (* "File ${filename} deleted successfully" *)
| NotFound404
| DeleteFailed500.

(** [DELETE /delete-upload/:filename]: [files] are the existing paths,
    [unlink_ok p] whether [fs.unlink(p)] succeeds. *)
Definition delete_upload (uploadDir : string) (files : list string)
    (unlink_ok : string -> bool) (filename : string) : list string * delete_response :=
  let filePath := path_join uploadDir filename in
  if existsb (String.eqb filePath) files then
    if unlink_ok filePath then
      (filter (fun f => negb (String.eqb f filePath)) files, Deleted200 filename)
    else (files, DeleteFailed500)
  else (files, NotFound404).

Inductive delete_all_response : Type :=
| NoFiles200                                 (* "No files to delete" *)
| DeleteAllDone200 (deleted failed : nat)    (* "Deleted ${deleteCount} files, failed ..." *)
| ReadDir500.

(** The [fs.unlink] callbacks of [/delete-all-uploads], run in the order
    [order] in which the unlinks complete; each one answers when
    [deleteCount + errorCount === files.length]. *)
Fixpoint unlink_callbacks (total : nat) (unlink_ok : string -> bool) (order : list string)
    (deleteCount errorCount : nat) : list delete_all_response :=
  match order with
  | [] => []
  | file :: rest =>
      let '(d, e) :=
        if unlink_ok file then (S deleteCount, errorCount) else (deleteCount, S errorCount) in
      (if Nat.eqb (d + e) total then [DeleteAllDone200 d e] else []) ++
      unlink_callbacks total unlink_ok rest d e
  end.

(** [DELETE /delete-all-uploads]: the responses sent.  [files.forEach]
    starts an unlink for every GLB/GLTF file; [order] lists those files in
    the order their callbacks run. *)
Definition delete_all_uploads (readdir : option (list string)) (unlink_ok : string -> bool)
    (order : list string) : list delete_all_response :=
  match readdir with
  | None => [ReadDir500]
  | Some files =>
      if Nat.eqb (length files) 0 then [NoFiles200]
      else unlink_callbacks (length files) unlink_ok order 0 0
  end.

(** ** Events and the event loop *)

Inductive event : Type :=
| Connect (c : conn)
| Disconnect (c : conn)
| RegisterHost (c : conn)
| RequestHost (c : conn)
| ReleaseHost (c : conn) (requestId : string)
| DenyHost (c : conn) (requestId : string)
| CancelHostRequest (c : conn)
| GiveUpHost (c : conn)
| Relay (c : conn) (k : relay_kind) (payload : json)
| ProductUploadCompleteEv (c : conn)
| BrowseSelection (c : conn) (parts : json)
| Upload (r : upload_req)
| Tick (d : N)
| TimerFire (h : N).

(** socket.io ids: non-empty and never an [Object.prototype] name. *)
Definition valid_sid (c : conn) : bool :=
  negb (String.eqb c "") && negb (is_proto_prop c).

Definition connected (s : state) (c : conn) : bool :=
  existsb (String.eqb c) (sockets s).

(** A handler runs only for an event of a connected socket. *)
Definition on_socket (s : state) (c : conn) (r : state * list emission)
    : option (state * list emission) :=
  if connected s c then Some r else None.

Definition step (s : state) (e : event) : option (state * list emission) :=
  match e with
  | Connect c =>
      if valid_sid c && negb (connected s c) then
        Some (mkState (hostSocketId s) (pendingRequests s) (hostUploadBuffers s) (timers s)
                      (next_timer s) (uuid_seed s) (now s) (sockets s ++ [c]), [])
      else None
  | Disconnect c => on_socket s c (disconnect s c)
  | RegisterHost c => on_socket s c (register_host s c)
  | RequestHost c => on_socket s c (request_host s c)
  | ReleaseHost c rid => on_socket s c (release_host s rid)
  | DenyHost c rid => on_socket s c (deny_host s rid)
  | CancelHostRequest c => on_socket s c (cancel_host_request s c)
  | GiveUpHost c => on_socket s c (give_up_host s c)
  | Relay c k p => on_socket s c (relay s c k p)
  | ProductUploadCompleteEv c => on_socket s c (product_upload_complete s c)
  | BrowseSelection c p => on_socket s c (browse_selection s c p)
  | Upload r => Some (fst (upload s r), [])
  | Tick d =>
      Some (mkState (hostSocketId s) (pendingRequests s) (hostUploadBuffers s) (timers s)
                    (next_timer s) (uuid_seed s) (now s + d) (sockets s), [])
  | TimerFire h =>
      match assocN h (timers s) with
      | Some tm => if (tm_due tm <=? now s)%N then Some (auto_transfer s h tm) else None
      | None => None
      end
  end.

Fixpoint run (s : state) (es : list event) : option (state * list emission) :=
  match es with
  | [] => Some (s, [])
  | e :: es' =>
      match step s e with
      | Some (s1, o1) =>
          match run s1 es' with
          | Some (s2, o2) => Some (s2, o1 ++ o2)
          | None => None
          end
      | None => None
      end
  end.

Definition reachable (s : state) : Prop :=
  exists es out, run init_state es = Some (s, out).

(** ** Concrete runs *)

Definition demo1 : list event :=
  [Connect "A"; Connect "B"; RegisterHost "A"; RequestHost "B"].

(** ** Auxiliary definitions used in the statements *)

Definition demo_browse : list event :=
  [Connect "A"; Connect "B"; RegisterHost "A"; BrowseSelection "A" (JArr [])].

Definition demo_hosted : list event := [Connect "A"; Connect "B"; RegisterHost "A"].

Definition buffer_of (b : list (conn * list part)) (c : conn) : list part :=
  match assoc c b with Some l => l | None => [] end.

(** An upload of [name] under [base] with [x-socket-id: H] and
    [x-uploader-role: host]. *)
Definition host_upload (H : conn) (bn : string * string) : event :=
  Upload (mkUpload (Some (snd bn)) (fst bn) (Some H) (Some "host")).

(** The entries these uploads append, in order, with the ids drawn from the
    uuid supply starting at [seed]. *)
Fixpoint host_parts (seed : N) (H : conn) (ups : list (string * string)) : list part :=
  match ups with
  | [] => []
  | (b, n) :: us =>
      mkPart (b ++ "/uploads/" ++ n)%string n (uuidv4 seed) H :: host_parts (N.succ seed) H us
  end.

Definition removed (c : conn) (l : list (request_id * pending)) :=
  filter (fun kv => String.eqb (pr_requester (snd kv)) c) l.

Definition kept (c : conn) (l : list (request_id * pending)) :=
  filter (fun kv => negb (String.eqb (pr_requester (snd kv)) c)) l.

Definition drop_keys (ks : list request_id) (pr : list (request_id * pending)) :=
  filter (fun kv => negb (existsb (String.eqb (fst kv)) ks)) pr.

Definition drop_handles (hs : list N) (tms : list (N * timer)) :=
  filter (fun ht => negb (existsb (N.eqb (fst ht)) hs)) tms.

Definition removed_handles (c : conn) (l : list (request_id * pending)) :=
  map (fun kv => pr_timeout (snd kv)) (removed c l).

Record Inv (s : state) : Prop := {
  inv_nodup : NoDup (sockets s);
  inv_valid : forall c, In c (sockets s) -> valid_sid c = true;
  inv_host : forall h, hostSocketId s = Some h -> In h (sockets s);
  inv_keys : NoDup (map fst (pendingRequests s));
  inv_req : forall rid p, In (rid, p) (pendingRequests s) -> In (pr_requester p) (sockets s);
  inv_fresh : forall rid p, In (rid, p) (pendingRequests s) ->
    exists m, (m < uuid_seed s)%N /\ rid = uuidv4 m;
  inv_timer : forall rid p, In (rid, p) (pendingRequests s) ->
    exists due, assocN (pr_timeout p) (timers s) = Some (mkTimer due (pr_requester p) rid);
  inv_handle : forall h tm, In (h, tm) (timers s) -> (h < next_timer s)%N;
  inv_back : forall h tm, In (h, tm) (timers s) ->
    assoc (tm_request tm) (pendingRequests s) = Some (mkPending h (tm_requester tm))
}.

Inductive shape (s s' : state) : Prop :=
| sh_same :
    pendingRequests s' = pendingRequests s -> timers s' = timers s ->
    next_timer s' = next_timer s -> (uuid_seed s <= uuid_seed s')%N -> shape s s'
| sh_drop (P : request_id * pending -> bool) (f : N -> bool) :
    pendingRequests s' = filter P (pendingRequests s) ->
    timers s' = filter (fun ht => f (fst ht)) (timers s) ->
    next_timer s' = next_timer s -> uuid_seed s' = uuid_seed s -> shape s s'
| sh_add (x : pending) (tm : timer) :
    pendingRequests s' = pendingRequests s ++ [(uuidv4 (uuid_seed s), x)] ->
    timers s' = timers s ++ [(next_timer s, tm)] ->
    next_timer s' = N.succ (next_timer s) -> uuid_seed s' = N.succ (uuid_seed s) ->
    shape s s'.

(** The ids of every part in the upload buffers, buffer after buffer. *)
Definition part_ids (b : list (conn * list part)) : list string :=
  flat_map (fun kv => map part_id (snd kv)) b.

(** What the upload buffers keep in every reachable state. *)
Record BufInv (s : state) : Prop := {
  binv_keys : NoDup (map fst (hostUploadBuffers s));
  binv_noproto : forall c l, In (c, l) (hostUploadBuffers s) -> is_proto_prop c = false;
  binv_sender : forall c l p, In (c, l) (hostUploadBuffers s) -> In p l -> part_sender p = c;
  binv_fresh : forall x, In x (part_ids (hostUploadBuffers s)) ->
    exists m, (m < uuid_seed s)%N /\ x = uuidv4 m;
  binv_ids : NoDup (part_ids (hostUploadBuffers s))
}.

Definition st_after (es : list event) : state :=
  match run init_state es with Some (s, _) => s | None => init_state end.

Definition st_hosted : state := st_after demo_hosted.
Definition st_requested : state := st_after demo1.

(** "A" and "B" connected, "A" host, "B" has requested the role, "A" gave it up. *)
Definition st_given_up : state := st_after (demo1 ++ [GiveUpHost "A"]).

(** "A" and "B" connected, "A" host, with two host uploads from "A" buffered. *)
Definition st_buffered : state :=
  st_after (demo_hosted ++ [host_upload "A" ("http://shop", "seat.glb");
                            host_upload "A" ("http://shop", "frame.glb")]).

Example demo1_out :
  option_map snd (run init_state demo1) =
  Some [(ToAll, HostChanged (Some "A")); (ToRoom (Some "A"), HostTransferRequest (uuidv4 0) "B")].
Proof. reflexivity. Qed.

Example demo1_fire :
  option_map (fun so => (hostSocketId (fst so), snd so))
    (run init_state (demo1 ++ [Tick 30000; TimerFire 0])) =
  Some (Some "B", [(ToAll, HostChanged (Some "A"));
                   (ToRoom (Some "A"), HostTransferRequest (uuidv4 0) "B");
                   (ToAll, HostChanged (Some "B"))]).
Proof. reflexivity. Qed.

Example demo1_release_constructor :
  option_map (fun so => (hostSocketId (fst so), snd so))
    (run init_state [Connect "A"; Connect "B"; RegisterHost "A"; ReleaseHost "B" "constructor"]) =
  Some (None, [(ToAll, HostChanged (Some "A")); (ToAll, HostChanged None)]).
Proof. reflexivity. Qed.

(** ** Lemmas on the JavaScript-object model *)

Lemma assoc_js_set_same {V} (k : string) (v : V) o : assoc k (js_set k v o) = Some v.
Proof.
  induction o as [|[k' v'] o IH]; simpl.
  - now rewrite String.eqb_refl.
  - destruct (String.eqb k' k) eqn:E; simpl.
    + now rewrite String.eqb_refl.
    + now rewrite E.
Qed.

Lemma assoc_js_set_other {V} (k k' : string) (v : V) o :
  k' <> k -> assoc k' (js_set k v o) = assoc k' o.
Proof.
  intros Hne. induction o as [|[k0 v0] o IH]; simpl.
  - apply String.eqb_neq in Hne. now rewrite String.eqb_sym, Hne.
  - destruct (String.eqb k0 k) eqn:E; simpl.
    + apply String.eqb_eq in E; subst k0.
      destruct (String.eqb k k') eqn:E2; [apply String.eqb_eq in E2; congruence|].
      reflexivity.
    + now rewrite IH.
Qed.

Lemma js_set_absent {V} (k : string) (v : V) o :
  assoc k o = None -> js_set k v o = o ++ [(k, v)].
Proof.
  induction o as [|[k0 v0] o IH]; simpl; intros H; [reflexivity|].
  destruct (String.eqb k0 k); [discriminate|]. now rewrite IH.
Qed.

Lemma assoc_js_delete_same {V} (k : string) (o : list (string * V)) :
  assoc k (js_delete k o) = None.
Proof.
  induction o as [|[k0 v0] o IH]; simpl; [reflexivity|].
  destruct (String.eqb k0 k) eqn:E; simpl; [exact IH|]. now rewrite E.
Qed.

Lemma assoc_js_delete_other {V} (k k' : string) (o : list (string * V)) :
  k' <> k -> assoc k' (js_delete k o) = assoc k' o.
Proof.
  intros Hne. induction o as [|[k0 v0] o IH]; simpl; [reflexivity|].
  destruct (String.eqb k0 k) eqn:E; simpl.
  - apply String.eqb_eq in E; subst k0.
    destruct (String.eqb k k') eqn:E2; [apply String.eqb_eq in E2; congruence|exact IH].
  - now rewrite IH.
Qed.

Lemma js_get_absent {V} (o : list (string * V)) k :
  assoc k o = None -> is_proto_prop k = false -> js_get o k = Absent.
Proof. unfold js_get. intros -> ->. reflexivity. Qed.

Lemma recipients_except (socks : list conn) c x :
  In x (recipients socks (ToAllExcept c)) <-> In x socks /\ x <> c.
Proof.
  simpl. rewrite filter_In, negb_true_iff, String.eqb_neq. tauto.
Qed.

Lemma run_app s es1 es2 :
  run s (es1 ++ es2) =
  match run s es1 with
  | Some (s1, o1) =>
      match run s1 es2 with Some (s2, o2) => Some (s2, o1 ++ o2) | None => None end
  | None => None
  end.
Proof.
  revert s. induction es1 as [|e es1 IH]; intros s; simpl.
  - destruct (run s es2) as [[s2 o2]|]; reflexivity.
  - destruct (step s e) as [[s1 o1]|]; [|reflexivity].
    rewrite IH. destruct (run s1 es1) as [[s3 o3]|]; [|reflexivity].
    destruct (run s3 es2) as [[s4 o4]|]; [|reflexivity].
    now rewrite app_assoc.
Qed.

(** ** C1: host-gated relay *)

(** C1: for [model-transform], [camera-update] and [reset-all], the message of
    the host is broadcast unmodified to every connection but the sender;
    from any other connection it is dropped: the state is unchanged and
    nothing is emitted (no error goes back to the sender). *)
Theorem host_gated_relay (s : state) (c : conn) (k : relay_kind) (payload : json) :
  connected s c = true ->
  k = ModelTransform \/ k = CameraUpdate \/ k = ResetAll ->
  (hostSocketId s = Some c ->
     step s (Relay c k payload) = Some (s, [(ToAllExcept c, Relayed k payload)]) /\
     (forall x, In x (recipients (sockets s) (ToAllExcept c)) <-> In x (sockets s) /\ x <> c)) /\
  (hostSocketId s <> Some c -> step s (Relay c k payload) = Some (s, [])).
Proof.
  intros Hc Hk. simpl. unfold on_socket, relay. rewrite Hc.
  split.
  - intros Hh. split; [|intros x; apply recipients_except].
    rewrite Hh. simpl. rewrite String.eqb_refl.
    destruct Hk as [->|[->| ->]]; reflexivity.
  - intros Hh. assert (Hb : is_host (hostSocketId s) c = false).
    { destruct (hostSocketId s) as [h|]; simpl; [|reflexivity].
      apply String.eqb_neq. congruence. }
    rewrite Hb. destruct Hk as [->|[->| ->]]; reflexivity.
Qed.

(** ** C9: the pointer relay is not gated *)

(** C9: [host-pointer-toggle] and [host-pointer-update] from any connected
    socket are broadcast to every connection but the sender, whoever the
    host is. *)
Theorem pointer_relay_ungated (s : state) (c : conn) (k : relay_kind) (payload : json) :
  connected s c = true ->
  k = HostPointerToggle \/ k = HostPointerUpdate ->
  step s (Relay c k payload) = Some (s, [(ToAllExcept c, Relayed k payload)]) /\
  (forall x, In x (recipients (sockets s) (ToAllExcept c)) <-> In x (sockets s) /\ x <> c).
Proof.
  intros Hc Hk. split; [|intros x; apply recipients_except].
  simpl. unfold on_socket, relay. rewrite Hc.
  destruct Hk as [->| ->]; reflexivity.
Qed.

(** ** C6: product-upload-complete goes to every connection *)

(** C6 (counterexample): the host "A" sends [browse-selection]; the
    resulting [product-upload-complete] is emitted with [io.emit], and "A",
    its sender, is among the recipients. *)
Lemma product_upload_complete_reaches_sender :
  match run init_state demo_browse with
  | Some (s, out) =>
      In (ToAll, ProductUploadComplete (JArr []) "A") out /\
      In "A" (recipients (sockets s) ToAll)
  | None => False
  end.
Proof. simpl. split; [right; left; reflexivity | left; reflexivity]. Qed.

(** C6 (amended): every [product-upload-complete] emission, from a buffer
    flush or from a host's [browse-selection], targets all connections
    ([io.emit]), the sender included. *)
Theorem product_upload_complete_to_all (s s' : state) (c : conn) (parts : json)
    (out : list emission) :
  (step s (ProductUploadCompleteEv c) = Some (s', out) \/
   step s (BrowseSelection c parts) = Some (s', out)) ->
  forall em, In em out ->
    fst em = ToAll /\ In c (recipients (sockets s') (fst em)) /\
    recipients (sockets s') (fst em) = sockets s'.
Proof.
  intros Hs em Hin.
  assert (Hc : connected s c = true /\ sockets s' = sockets s /\
               (forall em, In em out -> fst em = ToAll)).
  { destruct Hs as [Hs|Hs]; simpl in Hs; unfold on_socket in Hs;
      destruct (connected s c) eqn:Hc; try discriminate; injection Hs as Hs;
      (split; [reflexivity|]).
    - unfold product_upload_complete in Hs.
      destruct (js_get (hostUploadBuffers s) c) as [l|n|];
        [destruct (0 <? length l)%nat| |]; injection Hs as <- <-; simpl;
        (split; [reflexivity|]); intros em0 H0; simpl in H0;
        intuition (subst; reflexivity).
    - unfold browse_selection in Hs. destruct (is_host (hostSocketId s) c);
        injection Hs as <- <-; simpl;
        (split; [reflexivity|]); intros em0 H0; simpl in H0;
        intuition (subst; reflexivity). }
  destruct Hc as (Hc & Hso & Hall).
  rewrite (Hall em Hin). simpl. split; [reflexivity|]. split; [|reflexivity].
  rewrite Hso. unfold connected in Hc. apply existsb_exists in Hc.
  destruct Hc as (x & Hx & Heq). apply String.eqb_eq in Heq. now subst x.
Qed.

(** ** C7: stale request ids *)

(** C7 (code bug): with host "A" and no pending request, [release-host] with
    the request id "constructor" (not a key of [pendingRequests]) reads the
    inherited [Object.prototype.constructor], takes its [requester]
    ([undefined]) as the new host and broadcasts [host-changed]. *)
Lemma release_host_prototype_key :
  match run init_state demo_hosted with
  | Some (s, _) =>
      pendingRequests s = [] /\ hostSocketId s = Some "A" /\
      step s (ReleaseHost "B" "constructor") =
        Some (set_host None s, [(ToAll, HostChanged None)])
  | None => False
  end.
Proof. simpl. repeat split. Qed.

(** For a request id that is neither an own key nor an [Object.prototype]
    name, [release-host] and [deny-host] change nothing and emit nothing. *)
Lemma release_deny_unknown_noop (s : state) (c : conn) (rid : string) :
  connected s c = true -> assoc rid (pendingRequests s) = None ->
  is_proto_prop rid = false ->
  step s (ReleaseHost c rid) = Some (s, []) /\ step s (DenyHost c rid) = Some (s, []).
Proof.
  intros Hc Ha Hp. simpl. unfold on_socket, release_host, deny_host.
  rewrite Hc, (js_get_absent _ _ Ha Hp). split; reflexivity.
Qed.

(** ** C10: uploads and flushes never look at the host *)

(** C10: for any state, whoever the host is, an upload whose
    [x-uploader-role] is "host" and whose [x-socket-id] is the (non-empty)
    id [c] of a connection is appended to [c]'s buffer; and a
    [product-upload-complete] from [c] with a non-empty buffer broadcasts it
    to all connections and empties it, whoever the host is. *)
Theorem upload_flush_ignore_host (s : state) (c : conn) (base name : string) :
  valid_sid c = true ->
  (let (s', resp) := upload s (mkUpload (Some name) base (Some c) (Some "host")) in
   resp = UploadOk (base ++ "/uploads/" ++ name)%string name /\
   hostSocketId s' = hostSocketId s /\
   assoc c (hostUploadBuffers s') =
     Some (buffer_of (hostUploadBuffers s) c ++
           [mkPart (base ++ "/uploads/" ++ name)%string name (uuidv4 (uuid_seed s)) c])) /\
  (connected s c = true -> buffer_of (hostUploadBuffers s) c <> [] ->
   step s (ProductUploadCompleteEv c) =
     Some (set_buffers (js_set c [] (hostUploadBuffers s)) s,
           [(ToAll, ProductUploadComplete
                      (JArr (map part_json (buffer_of (hostUploadBuffers s) c))) c)])).
Proof.
  intros Hv. unfold valid_sid in Hv. apply andb_true_iff in Hv as [Hne Hp].
  apply negb_true_iff in Hne, Hp.
  unfold buffer_of. split.
  - unfold upload. simpl. rewrite Hne. simpl. unfold js_get.
    destruct (assoc c (hostUploadBuffers s)) as [l|] eqn:Ha; [|rewrite Hp];
      simpl; (split; [reflexivity|split; [reflexivity|apply assoc_js_set_same]]).
  - intros Hc Hnon. simpl. unfold on_socket, product_upload_complete. rewrite Hc.
    unfold js_get. destruct (assoc c (hostUploadBuffers s)) as [l|]; [|now contradiction Hnon].
    destruct l as [|p l]; [now contradiction Hnon|]. reflexivity.
Qed.

(** ** C3: buffer atomicity *)

Lemma host_parts_length seed H ups : length (host_parts seed H ups) = length ups.
Proof.
  revert seed. induction ups as [|[b n] ups IH]; intros seed; simpl; [reflexivity|].
  now rewrite IH.
Qed.

Lemma upload_host_buffer (s : state) (c : conn) (base name : string) :
  valid_sid c = true ->
  let s' := fst (upload s (mkUpload (Some name) base (Some c) (Some "host"))) in
  assoc c (hostUploadBuffers s') =
    Some (buffer_of (hostUploadBuffers s) c ++
          [mkPart (base ++ "/uploads/" ++ name)%string name (uuidv4 (uuid_seed s)) c]) /\
  uuid_seed s' = N.succ (uuid_seed s) /\ sockets s' = sockets s.
Proof.
  intros Hv. unfold valid_sid in Hv. apply andb_true_iff in Hv as [Hne Hp].
  apply negb_true_iff in Hne, Hp. unfold buffer_of, upload. simpl. rewrite Hne. simpl.
  unfold js_get.
  destruct (assoc c (hostUploadBuffers s)) as [l|] eqn:Ha; [|rewrite Hp];
    simpl; (split; [apply assoc_js_set_same|split; reflexivity]).
Qed.

Lemma run_host_uploads (H : conn) (ups : list (string * string)) :
  valid_sid H = true ->
  forall s, exists s',
    run s (map (host_upload H) ups) = Some (s', []) /\
    buffer_of (hostUploadBuffers s') H =
      buffer_of (hostUploadBuffers s) H ++ host_parts (uuid_seed s) H ups /\
    (ups <> [] -> assoc H (hostUploadBuffers s') = Some (buffer_of (hostUploadBuffers s') H)) /\
    sockets s' = sockets s.
Proof.
  intros Hv. induction ups as [|[b n] ups IH]; intros s.
  - exists s. simpl. rewrite app_nil_r. repeat split; congruence.
  - destruct (upload_host_buffer s H b n Hv) as (Hb & Hseed & Hso).
    set (s1 := fst (upload s (mkUpload (Some n) b (Some H) (Some "host")))) in *.
    destruct (IH s1) as (s2 & Hrun & Hbuf & Hsome & Hso2).
    exists s2. simpl. unfold host_upload at 1. simpl. fold s1.
    unfold host_upload in Hrun. rewrite Hrun. split; [reflexivity|].
    assert (Hb1 : buffer_of (hostUploadBuffers s1) H =
                  buffer_of (hostUploadBuffers s) H ++
                  [mkPart (b ++ "/uploads/" ++ n)%string n (uuidv4 (uuid_seed s)) H]).
    { unfold buffer_of at 1. now rewrite Hb. }
    split; [|split].
    + rewrite Hbuf, Hb1, Hseed, <- app_assoc. reflexivity.
    + intros _. destruct ups as [|u us].
      * simpl in Hrun. injection Hrun as <-. rewrite Hb. unfold buffer_of. now rewrite Hb.
      * apply Hsome. discriminate.
    + congruence.
Qed.

(** C3: starting with an empty buffer for the connection [H], [k >= 1] host
    uploads from [H] followed by one [product-upload-complete] from [H]
    produce exactly one emission, a broadcast of the [k] entries in upload
    order; [H]'s buffer is then empty, and a second
    [product-upload-complete] emits nothing. *)
Theorem flush_after_host_uploads (s : state) (H : conn) (ups : list (string * string)) :
  valid_sid H = true -> connected s H = true ->
  buffer_of (hostUploadBuffers s) H = [] -> ups <> [] ->
  exists s1,
    run s (map (host_upload H) ups ++ [ProductUploadCompleteEv H]) =
      Some (s1, [(ToAll, ProductUploadComplete
                           (JArr (map part_json (host_parts (uuid_seed s) H ups))) H)]) /\
    length (host_parts (uuid_seed s) H ups) = length ups /\
    assoc H (hostUploadBuffers s1) = Some [] /\
    step s1 (ProductUploadCompleteEv H) = Some (s1, []).
Proof.
  intros Hv Hc Hempty Hne.
  destruct (run_host_uploads H ups Hv s) as (s' & Hrun & Hbuf & Hsome & Hso).
  rewrite Hempty in Hbuf. simpl in Hbuf.
  specialize (Hsome Hne). rewrite Hbuf in Hsome.
  assert (Hc' : connected s' H = true) by (unfold connected in *; now rewrite Hso).
  assert (Hlen : (0 <? length (host_parts (uuid_seed s) H ups))%nat = true).
  { rewrite host_parts_length. destruct ups; [contradiction|reflexivity]. }
  set (s1 := set_buffers (js_set H [] (hostUploadBuffers s')) s').
  assert (Hs1 : assoc H (hostUploadBuffers s1) = Some []) by apply assoc_js_set_same.
  exists s1. split; [|split; [apply host_parts_length|split; [exact Hs1|]]].
  - rewrite run_app, Hrun. simpl. unfold on_socket, product_upload_complete.
    rewrite Hc'. unfold js_get. rewrite Hsome, Hlen. reflexivity.
  - simpl. unfold on_socket. replace (connected s1 H) with true by (symmetry; exact Hc').
    unfold product_upload_complete, js_get. rewrite Hs1. reflexivity.
Qed.

(** ** Association-list lemmas *)

Lemma assoc_In {V} k (v : V) l : assoc k l = Some v -> In (k, v) l.
Proof.
  induction l as [|[k0 v0] l IH]; simpl; [discriminate|].
  destruct (String.eqb k0 k) eqn:E; intros Hs.
  - apply String.eqb_eq in E. injection Hs as <-. subst. now left.
  - right. now apply IH.
Qed.

Lemma In_assoc {V} k (v : V) l : NoDup (map fst l) -> In (k, v) l -> assoc k l = Some v.
Proof.
  induction l as [|[k0 v0] l IH]; simpl; [contradiction|].
  intros Hnd Hin. inversion Hnd as [|? ? Hnot Hnd']; subst.
  destruct Hin as [Heq|Hin].
  - injection Heq as -> ->. now rewrite String.eqb_refl.
  - destruct (String.eqb k0 k) eqn:E; [|now apply IH].
    apply String.eqb_eq in E; subst k0. exfalso. apply Hnot.
    now apply (in_map fst) in Hin.
Qed.

Lemma assoc_filter {V} (P : string * V -> bool) k v l :
  assoc k l = Some v -> P (k, v) = true -> assoc k (filter P l) = Some v.
Proof.
  induction l as [|[k0 v0] l IH]; simpl; [discriminate|].
  destruct (String.eqb k0 k) eqn:E; intros Hs HP.
  - injection Hs as <-. apply String.eqb_eq in E; subst k0. rewrite HP. simpl.
    now rewrite String.eqb_refl.
  - destruct (P (k0, v0)); simpl; [rewrite E|]; now apply IH.
Qed.

Lemma assoc_app_l {V} k (v : V) l l' : assoc k l = Some v -> assoc k (l ++ l') = Some v.
Proof.
  induction l as [|[k0 v0] l IH]; simpl; [discriminate|].
  destruct (String.eqb k0 k); auto.
Qed.

Lemma assoc_app_none {V} k (l l' : list (string * V)) :
  assoc k l = None -> assoc k (l ++ l') = assoc k l'.
Proof.
  induction l as [|[k0 v0] l IH]; simpl; [reflexivity|].
  destruct (String.eqb k0 k); [discriminate|auto].
Qed.

Lemma assoc_none_notin {V} k (l : list (string * V)) :
  ~ In k (map fst l) -> assoc k l = None.
Proof.
  induction l as [|[k0 v0] l IH]; simpl; [reflexivity|].
  intros Hn. destruct (String.eqb k0 k) eqn:E.
  - apply String.eqb_eq in E. exfalso. now apply Hn; left.
  - apply IH. intros H'. now apply Hn; right.
Qed.

Lemma assocN_In {V} k (v : V) l : assocN k l = Some v -> In (k, v) l.
Proof.
  induction l as [|[k0 v0] l IH]; simpl; [discriminate|].
  destruct (N.eqb k0 k) eqn:E; intros Hs.
  - apply N.eqb_eq in E. injection Hs as <-. subst. now left.
  - right. now apply IH.
Qed.

Lemma assocN_app_l {V} k (v : V) l l' : assocN k l = Some v -> assocN k (l ++ l') = Some v.
Proof.
  induction l as [|[k0 v0] l IH]; simpl; [discriminate|].
  destruct (N.eqb k0 k); auto.
Qed.

Lemma assocN_app_none {V} k (l l' : list (N * V)) :
  assocN k l = None -> assocN k (l ++ l') = assocN k l'.
Proof.
  induction l as [|[k0 v0] l IH]; simpl; [reflexivity|].
  destruct (N.eqb k0 k); [discriminate|auto].
Qed.

Lemma assocN_none_lt {V} (n : N) (l : list (N * V)) :
  (forall h v, In (h, v) l -> (h < n)%N) -> assocN n l = None.
Proof.
  induction l as [|[k0 v0] l IH]; simpl; intros Hlt; [reflexivity|].
  destruct (N.eqb k0 n) eqn:E.
  - apply N.eqb_eq in E. subst. specialize (Hlt n v0 (or_introl eq_refl)). lia.
  - apply IH. intros h v Hin. exact (Hlt h v (or_intror Hin)).
Qed.

Lemma assocN_filter {V} (f : N -> bool) k (l : list (N * V)) :
  f k = true -> assocN k (filter (fun ht => f (fst ht)) l) = assocN k l.
Proof.
  intros Hf. induction l as [|[k0 v0] l IH]; simpl; [reflexivity|].
  destruct (N.eqb k0 k) eqn:E.
  - apply N.eqb_eq in E; subst k0. rewrite Hf. simpl. now rewrite N.eqb_refl.
  - destruct (f k0); simpl; [rewrite E|]; exact IH.
Qed.

Lemma assocN_filter_none {V} (f : N -> bool) k (l : list (N * V)) :
  f k = false -> assocN k (filter (fun ht => f (fst ht)) l) = None.
Proof.
  intros Hf. induction l as [|[k0 v0] l IH]; simpl; [reflexivity|].
  destruct (f k0) eqn:Hk0; simpl; [|exact IH].
  destruct (N.eqb k0 k) eqn:E; [|exact IH].
  apply N.eqb_eq in E; subst. congruence.
Qed.

Lemma filter_filter' {A} (f g : A -> bool) l :
  filter f (filter g l) = filter (fun x => g x && f x) l.
Proof.
  induction l as [|x l IH]; simpl; [reflexivity|].
  destruct (g x); simpl; [destruct (f x); simpl; now rewrite IH|exact IH].
Qed.

Lemma filter_true_id {A} (l : list A) : filter (fun _ => true) l = l.
Proof. induction l as [|x l IH]; simpl; congruence. Qed.

(** ** The two request loops *)

Lemma disconnect_loop_spec c entries : forall pr tms,
  disconnect_loop c entries pr tms =
  (drop_keys (map fst (removed c entries)) pr, drop_handles (removed_handles c entries) tms).
Proof.
  unfold removed_handles, drop_keys, drop_handles.
  induction entries as [|[k p] rest IH]; intros pr tms; simpl.
  - now rewrite !filter_true_id.
  - unfold removed. simpl. destruct (String.eqb (pr_requester p) c); simpl.
    + rewrite IH. unfold js_delete, clearTimeout. rewrite !filter_filter'.
      f_equal; apply filter_ext; intros x; now rewrite negb_orb.
    + apply IH.
Qed.

Lemma cancel_loop_spec c host entries : forall pr tms,
  cancel_loop c host entries pr tms =
  (drop_keys (map fst (removed c entries)) pr, drop_handles (removed_handles c entries) tms,
   if js_truthy host
   then map (fun kv => (ToRoom host, HostRequestCancelled (fst kv))) (removed c entries)
   else []).
Proof.
  unfold removed_handles, drop_keys, drop_handles.
  induction entries as [|[k p] rest IH]; intros pr tms; simpl.
  - rewrite !filter_true_id. destruct (js_truthy host); reflexivity.
  - unfold removed. simpl. destruct (String.eqb (pr_requester p) c); simpl.
    + rewrite IH. unfold js_delete, clearTimeout. rewrite !filter_filter'.
      f_equal; [f_equal; apply filter_ext; intros x; now rewrite negb_orb|].
      destruct (js_truthy host); reflexivity.
    + apply IH.
Qed.

Lemma drop_removed_keys c l :
  NoDup (map fst l) -> drop_keys (map fst (removed c l)) l = kept c l.
Proof.
  unfold drop_keys, kept, removed.
  induction l as [|[k p] l IH]; simpl; intros Hnd; [reflexivity|].
  inversion Hnd as [|? ? Hnot Hnd']; subst.
  assert (Hl : forall ks, (forall kv, In kv l -> String.eqb (fst kv) k = false) ->
             filter (fun kv => negb (String.eqb (fst kv) k || existsb (String.eqb (fst kv)) ks)) l =
             filter (fun kv => negb (existsb (String.eqb (fst kv)) ks)) l).
  { intros ks Hne. apply filter_ext_in. intros [k' v'] Hin.
    specialize (Hne _ Hin). simpl in *. now rewrite Hne. }
  assert (Hne : forall kv, In kv l -> String.eqb (fst kv) k = false).
  { intros kv Hin. apply String.eqb_neq. intros Heq. apply Hnot. rewrite <- Heq.
    now apply in_map. }
  destruct (String.eqb (pr_requester p) c) eqn:E; simpl.
  - rewrite (String.eqb_refl k). simpl. rewrite Hl by exact Hne. now apply IH.
  - assert (Hk : existsb (String.eqb k)
                   (map fst (filter (fun kv => String.eqb (pr_requester (snd kv)) c) l)) = false).
    { apply Bool.not_true_iff_false. intros Hx. apply existsb_exists in Hx.
      destruct Hx as (k' & Hin & Heq). apply String.eqb_eq in Heq. subst k'.
      apply Hnot. apply in_map_iff in Hin. destruct Hin as (kv & <- & Hin).
      apply filter_In in Hin. now apply in_map. }
    rewrite Hk. simpl. f_equal. now apply IH.
Qed.

(** ** The uuid supply is injective *)

Lemma pos_digits_nonempty p : pos_digits p <> "".
Proof. destruct p; discriminate. Qed.

Lemma pos_digits_inj p q : pos_digits p = pos_digits q -> p = q.
Proof.
  revert q. induction p as [p IH|p IH|]; intros [q|q|]; simpl; intros H;
    try discriminate; try reflexivity; injection H as H.
  - f_equal. now apply IH.
  - exfalso. now apply (pos_digits_nonempty p).
  - f_equal. now apply IH.
  - exfalso. now apply (pos_digits_nonempty q), eq_sym.
Qed.

Lemma uuidv4_inj m n : uuidv4 m = uuidv4 n -> m = n.
Proof.
  unfold uuidv4. intros H. injection H as H. apply pos_digits_inj in H.
  apply (f_equal Npos) in H. rewrite !N.succ_pos_spec in H. lia.
Qed.

(** ** The state invariant *)

Lemma Inv_init : Inv init_state.
Proof. constructor; simpl; try contradiction; try discriminate; constructor. Qed.

Lemma inv_handle_unique s rid p rid' p' :
  Inv s -> In (rid, p) (pendingRequests s) -> In (rid', p') (pendingRequests s) ->
  pr_timeout p = pr_timeout p' -> rid = rid' /\ p = p'.
Proof.
  intros I H1 H2 Heq.
  destruct (inv_timer s I _ _ H1) as [d1 T1]. destruct (inv_timer s I _ _ H2) as [d2 T2].
  rewrite Heq, T2 in T1. injection T1 as _ _ ->. split; [reflexivity|].
  apply In_assoc in H1, H2; try apply (inv_keys s I). congruence.
Qed.

Lemma NoDup_map_filter {A B} (f : A -> B) (P : A -> bool) l :
  NoDup (map f l) -> NoDup (map f (filter P l)).
Proof.
  induction l as [|x l IH]; simpl; intros Hnd; [constructor|].
  inversion Hnd as [|? ? Hnot Hnd']; subst.
  destruct (P x); simpl; [|now apply IH].
  constructor; [|now apply IH]. intros Hin. apply Hnot.
  apply in_map_iff in Hin. destruct Hin as (y & Hy & Hin). apply filter_In in Hin.
  rewrite <- Hy. apply in_map. apply Hin.
Qed.

Lemma NoDup_snoc {A} (l : list A) x : NoDup l -> ~ In x l -> NoDup (l ++ [x]).
Proof.
  induction l as [|y l IH]; simpl; intros Hnd Hn; [constructor; [auto|constructor]|].
  inversion Hnd as [|? ? Hnot Hnd']; subst. constructor.
  - rewrite in_app_iff. simpl. intuition.
  - apply IH; auto.
Qed.

(** Removing the requests selected by [P] together with their timers. *)
Lemma Inv_drop (s : state) (P : request_id * pending -> bool) (hs : list N)
    host' b' n' socks' :
  Inv s ->
  (forall kv, In kv (pendingRequests s) -> P kv = true -> In (pr_timeout (snd kv)) hs) ->
  (forall h, In h hs -> exists kv, In kv (pendingRequests s) /\ P kv = true /\
                                   pr_timeout (snd kv) = h) ->
  NoDup socks' -> (forall c, In c socks' -> In c (sockets s)) ->
  (forall h, host' = Some h -> In h socks') ->
  (forall kv, In kv (pendingRequests s) -> P kv = false -> In (pr_requester (snd kv)) socks') ->
  Inv (mkState host' (filter (fun kv => negb (P kv)) (pendingRequests s)) b'
               (drop_handles hs (timers s)) (next_timer s) (uuid_seed s) n' socks').
Proof.
  intros I Hin Hhs Hnd Hsub Hh Hreq. constructor; simpl; auto.
  - intros c Hc. apply (inv_valid s I). now apply Hsub.
  - apply NoDup_map_filter, (inv_keys s I).
  - intros rid p Hp. apply filter_In in Hp as [Hp HP]. apply negb_true_iff in HP.
    exact (Hreq _ Hp HP).
  - intros rid p Hp. apply filter_In in Hp as [Hp _]. exact (inv_fresh s I _ _ Hp).
  - intros rid p Hp. apply filter_In in Hp as [Hp HP]. apply negb_true_iff in HP.
    destruct (inv_timer s I _ _ Hp) as [d Hd]. exists d. unfold drop_handles.
    rewrite (assocN_filter (fun h => negb (existsb (N.eqb h) hs))); [exact Hd|].
    apply negb_true_iff, Bool.not_true_iff_false. intros Hx.
    apply existsb_exists in Hx. destruct Hx as (h & Hh' & Heq). apply N.eqb_eq in Heq.
    destruct (Hhs h Hh') as ([rid' p'] & Hp' & HP' & Ht). simpl in Ht.
    destruct (inv_handle_unique s rid p rid' p' I Hp Hp') as [<- <-]; [congruence|].
    congruence.
  - intros h tm Htm. apply filter_In in Htm as [Htm _]. exact (inv_handle s I _ _ Htm).
  - intros h tm Htm. apply filter_In in Htm as [Htm Hx]. simpl in Hx.
    pose proof (inv_back s I _ _ Htm) as Hb. apply assoc_filter; [exact Hb|].
    apply negb_true_iff, Bool.not_true_iff_false. intros HP.
    specialize (Hin _ (assoc_In _ _ _ Hb) HP). simpl in Hin.
    apply negb_true_iff, Bool.not_true_iff_false in Hx. apply Hx.
    apply existsb_exists. exists h. split; [exact Hin|apply N.eqb_refl].
Qed.

(** Removing one request (release, deny, or its own timer firing). *)
Lemma Inv_remove_one (s : state) rid p host' b' n' :
  Inv s -> assoc rid (pendingRequests s) = Some p ->
  (forall h, host' = Some h -> In h (sockets s)) ->
  Inv (mkState host' (js_delete rid (pendingRequests s)) b'
               (clearTimeout (pr_timeout p) (timers s)) (next_timer s) (uuid_seed s) n'
               (sockets s)).
Proof.
  intros I Ha Hh.
  assert (Hin : In (rid, p) (pendingRequests s)) by now apply assoc_In.
  replace (clearTimeout (pr_timeout p) (timers s))
    with (drop_handles [pr_timeout p] (timers s))
    by (unfold drop_handles, clearTimeout; apply filter_ext; intros x; simpl;
        now rewrite orb_false_r).
  apply (Inv_drop s (fun kv => String.eqb (fst kv) rid)); auto.
  - intros [k q] Hk Heq. simpl in Heq. apply String.eqb_eq in Heq. subst k.
    apply In_assoc in Hk; [|apply (inv_keys s I)]. rewrite Ha in Hk.
    injection Hk as <-. now left.
  - intros h [<-|[]]. exists (rid, p). simpl. rewrite String.eqb_refl. auto.
  - apply (inv_nodup s I).
  - intros [k q] Hk Hne. exact (inv_req s I _ _ Hk).
Qed.

Lemma Inv_frame (s s' : state) :
  Inv s -> hostSocketId s' = hostSocketId s -> pendingRequests s' = pendingRequests s ->
  timers s' = timers s -> next_timer s' = next_timer s ->
  (uuid_seed s <= uuid_seed s')%N -> sockets s' = sockets s -> Inv s'.
Proof.
  intros I Hh Hp Ht Hn Hs Hso. constructor; rewrite ?Hh, ?Hp, ?Ht, ?Hn, ?Hso.
  - apply (inv_nodup s I).
  - apply (inv_valid s I).
  - apply (inv_host s I).
  - apply (inv_keys s I).
  - apply (inv_req s I).
  - intros rid p Hin. destruct (inv_fresh s I _ _ Hin) as (m & Hm & ->).
    exists m. split; [lia|reflexivity].
  - apply (inv_timer s I).
  - apply (inv_handle s I).
  - apply (inv_back s I).
Qed.

Lemma Inv_set_host (s : state) h' :
  Inv s -> (forall h, h' = Some h -> In h (sockets s)) -> Inv (set_host h' s).
Proof.
  intros I Hh. destruct I. constructor; simpl; auto.
Qed.

Lemma connected_In s c : connected s c = true -> In c (sockets s).
Proof.
  unfold connected. intros H. apply existsb_exists in H.
  destruct H as (x & Hx & Heq). apply String.eqb_eq in Heq. now subst.
Qed.

Lemma js_get_own {V} (o : list (string * V)) k v : js_get o k = Own v -> assoc k o = Some v.
Proof.
  unfold js_get. destruct (assoc k o); [congruence|].
  destruct (is_proto_prop k); discriminate.
Qed.

Lemma upload_frame (s : state) (r : upload_req) :
  let s' := fst (upload s r) in
  hostSocketId s' = hostSocketId s /\ pendingRequests s' = pendingRequests s /\
  timers s' = timers s /\ next_timer s' = next_timer s /\
  (uuid_seed s <= uuid_seed s')%N /\ sockets s' = sockets s.
Proof.
  unfold upload. destruct (up_file r) as [name|]; simpl; [|repeat split; lia].
  destruct (up_socket_id r) as [id|]; simpl; [|repeat split; lia].
  match goal with |- context [if ?b then _ else _] => destruct b end;
    [|simpl; repeat split; lia].
  destruct (js_get (hostUploadBuffers s) id); simpl; repeat split; lia.
Qed.

Lemma disconnect_state (s : state) (c : conn) :
  Inv s ->
  disconnect s c =
  (mkState (if is_host (hostSocketId s) c then None else hostSocketId s)
           (kept c (pendingRequests s)) (hostUploadBuffers s)
           (drop_handles (removed_handles c (pendingRequests s)) (timers s))
           (next_timer s) (uuid_seed s) (now s)
           (filter (fun x => negb (String.eqb x c)) (sockets s)),
   if is_host (hostSocketId s) c then [(ToAll, HostChanged None)] else []).
Proof.
  intros I. unfold disconnect. simpl.
  destruct (is_host (hostSocketId s) c); simpl;
    rewrite disconnect_loop_spec, drop_removed_keys by apply (inv_keys s I); reflexivity.
Qed.

Lemma cancel_state (s : state) (c : conn) :
  Inv s ->
  cancel_host_request s c =
  (set_requests (kept c (pendingRequests s))
                (drop_handles (removed_handles c (pendingRequests s)) (timers s)) s,
   if js_truthy (hostSocketId s)
   then map (fun kv => (ToRoom (hostSocketId s), HostRequestCancelled (fst kv)))
            (removed c (pendingRequests s))
   else []).
Proof.
  intros I. unfold cancel_host_request.
  rewrite cancel_loop_spec, drop_removed_keys by apply (inv_keys s I). reflexivity.
Qed.

(** Dropping the requests of [c] (cancel and disconnect). *)
Lemma Inv_drop_requester (s : state) (c : conn) host' b' n' socks' :
  Inv s -> NoDup socks' -> (forall x, In x socks' -> In x (sockets s)) ->
  (forall h, host' = Some h -> In h socks') ->
  (forall x, In x (sockets s) -> x <> c -> In x socks') ->
  Inv (mkState host' (kept c (pendingRequests s)) b'
               (drop_handles (removed_handles c (pendingRequests s)) (timers s))
               (next_timer s) (uuid_seed s) n' socks').
Proof.
  intros I Hnd Hsub Hh Hkeep.
  apply (Inv_drop s (fun kv => String.eqb (pr_requester (snd kv)) c)); auto.
  - intros kv Hkv HP. unfold removed_handles, removed.
    apply (in_map (fun kv => pr_timeout (snd kv))). apply filter_In. auto.
  - intros h Hh'. unfold removed_handles, removed in Hh'. apply in_map_iff in Hh'.
    destruct Hh' as (kv & <- & Hkv). apply filter_In in Hkv. exists kv. tauto.
  - intros [k p] Hkv HP. simpl in *. apply Hkeep; [exact (inv_req s I _ _ Hkv)|].
    apply String.eqb_neq. exact HP.
Qed.

Lemma fresh_request_absent (s : state) :
  Inv s -> assoc (uuidv4 (uuid_seed s)) (pendingRequests s) = None.
Proof.
  intros I. apply assoc_none_notin. intros Hin. apply in_map_iff in Hin.
  destruct Hin as ([k p] & Hk & Hin). simpl in Hk. subst k.
  destruct (inv_fresh s I _ _ Hin) as (m & Hm & Heq). apply uuidv4_inj in Heq. lia.
Qed.

Lemma Inv_request_host (s : state) (c : conn) :
  Inv s -> In c (sockets s) -> Inv (fst (request_host s c)).
Proof.
  intros I Hc. unfold request_host.
  destruct (negb (js_truthy (hostSocketId s))).
  { apply Inv_set_host; [exact I|]. intros h [= <-]. exact Hc. }
  destruct (is_host (hostSocketId s) c); [exact I|]. simpl.
  pose proof (fresh_request_absent s I) as Hfresh.
  rewrite (js_set_absent _ _ _ Hfresh).
  set (rid := uuidv4 (uuid_seed s)) in *.
  assert (Hnone : assocN (next_timer s) (timers s) = None)
    by (apply assocN_none_lt; exact (inv_handle s I)).
  constructor; simpl.
  - apply (inv_nodup s I).
  - apply (inv_valid s I).
  - apply (inv_host s I).
  - rewrite map_app. simpl. apply NoDup_snoc; [apply (inv_keys s I)|].
    intros Hin.
    apply in_map_iff in Hin. destruct Hin as ([k p] & Hk & Hin). simpl in Hk. subst k.
    apply In_assoc in Hin; [congruence|apply (inv_keys s I)].
  - intros k p Hin. apply in_app_iff in Hin as [Hin|[Heq|[]]].
    + exact (inv_req s I _ _ Hin).
    + injection Heq as <- <-. exact Hc.
  - intros k p Hin. apply in_app_iff in Hin as [Hin|[Heq|[]]].
    + destruct (inv_fresh s I _ _ Hin) as (m & Hm & ->). exists m. split; [lia|reflexivity].
    + injection Heq as <- <-. exists (uuid_seed s). split; [lia|reflexivity].
  - intros k p Hin. apply in_app_iff in Hin as [Hin|[Heq|[]]].
    + destruct (inv_timer s I _ _ Hin) as [d Hd]. exists d. now apply assocN_app_l.
    + injection Heq as <- <-. exists (now s + TIMEOUT_MS)%N. simpl.
      rewrite assocN_app_none by exact Hnone. simpl. now rewrite N.eqb_refl.
  - intros h tm Hin. apply in_app_iff in Hin as [Hin|[Heq|[]]].
    + pose proof (inv_handle s I _ _ Hin). lia.
    + injection Heq as <- <-. lia.
  - intros h tm Hin. apply in_app_iff in Hin as [Hin|[Heq|[]]].
    + apply assoc_app_l. exact (inv_back s I _ _ Hin).
    + injection Heq as <- <-. simpl. rewrite assoc_app_none by exact Hfresh. simpl.
      now rewrite String.eqb_refl.
Qed.

Lemma some_inj {A} (x y : A) : Some x = Some y -> x = y.
Proof. congruence. Qed.

Lemma step_inv (s : state) (e : event) (s' : state) (out : list emission) :
  Inv s -> step s e = Some (s', out) -> Inv s'.
Proof.
  intros I Hs. destruct e as [c|c|c|c|c rid|c rid|c|c|c k p|c|c p|r|d|h]; simpl in Hs;
    try (unfold on_socket in Hs; destruct (connected s c) eqn:Hc; [|discriminate];
         apply connected_In in Hc; apply some_inj in Hs).
  - (* Connect *)
    destruct (valid_sid c && negb (connected s c)) eqn:Hv; [|discriminate].
    apply andb_true_iff in Hv as [Hv Hn]. apply negb_true_iff in Hn.
    injection Hs as <- _. constructor; simpl.
    + apply NoDup_snoc; [apply (inv_nodup s I)|]. intros Hin.
      unfold connected in Hn. rewrite (proj2 (existsb_exists _ _)) in Hn; [discriminate|].
      exists c. split; [exact Hin|apply String.eqb_refl].
    + intros x Hx. apply in_app_iff in Hx as [Hx|[<-|[]]]; [exact (inv_valid s I _ Hx)|exact Hv].
    + intros h' Hh. apply in_app_iff. left. exact (inv_host s I _ Hh).
    + apply (inv_keys s I).
    + intros k q Hin. apply in_app_iff. left. exact (inv_req s I _ _ Hin).
    + apply (inv_fresh s I).
    + apply (inv_timer s I).
    + apply (inv_handle s I).
    + apply (inv_back s I).
  - (* Disconnect *)
    rewrite (disconnect_state s c I) in Hs. injection Hs as <- _.
    apply Inv_drop_requester; auto.
    + apply NoDup_filter, (inv_nodup s I).
    + intros x Hx. apply filter_In in Hx. tauto.
    + intros h Hh. destruct (hostSocketId s) as [h0|] eqn:Eh; simpl in Hh; [|discriminate].
      destruct (String.eqb h0 c) eqn:E; [discriminate|]. injection Hh as <-.
      apply filter_In. split; [exact (inv_host s I _ Eh)|]. now rewrite E.
    + intros x Hx Hne. apply filter_In. split; [exact Hx|].
      apply negb_true_iff, String.eqb_neq. exact Hne.
  - (* RegisterHost *)
    unfold register_host in Hs. injection Hs as <- _.
    apply Inv_set_host; [exact I|]. intros h [= <-]. exact Hc.
  - (* RequestHost *)
    pose proof (Inv_request_host s c I Hc) as H'. rewrite Hs in H'. exact H'.
  - (* ReleaseHost *)
    unfold release_host in Hs. destruct (js_get (pendingRequests s) rid) as [q|n|] eqn:Eg.
    + injection Hs as <- _. apply js_get_own in Eg.
      apply Inv_remove_one; [exact I|exact Eg|].
      intros h [= <-]. exact (inv_req s I _ _ (assoc_In _ _ _ Eg)).
    + injection Hs as <- _. apply Inv_set_host; [exact I|discriminate].
    + injection Hs as <- _. exact I.
  - (* DenyHost *)
    unfold deny_host in Hs. destruct (js_get (pendingRequests s) rid) as [q|n|] eqn:Eg.
    + injection Hs as <- _. apply js_get_own in Eg.
      exact (Inv_remove_one s rid q (hostSocketId s) (hostUploadBuffers s) (now s) I Eg
               (inv_host s I)).
    + injection Hs as <- _. exact I.
    + injection Hs as <- _. exact I.
  - (* CancelHostRequest *)
    rewrite (cancel_state s c I) in Hs. injection Hs as <- _.
    apply Inv_drop_requester; auto; [apply (inv_nodup s I)|apply (inv_host s I)].
  - (* GiveUpHost *)
    unfold give_up_host in Hs. destruct (is_host (hostSocketId s) c); injection Hs as <- _;
      [apply Inv_set_host; [exact I|discriminate]|exact I].
  - (* Relay *)
    unfold relay in Hs. destruct k; try destruct (is_host (hostSocketId s) c);
      injection Hs as <- _; exact I.
  - (* ProductUploadCompleteEv *)
    unfold product_upload_complete in Hs.
    destruct (js_get (hostUploadBuffers s) c) as [l|n|];
      [destruct (0 <? length l)%nat| |]; injection Hs as <- _; try exact I.
    apply (Inv_frame s _ I); simpl; reflexivity || lia.
  - (* BrowseSelection *)
    unfold browse_selection in Hs. destruct (is_host (hostSocketId s) c);
      injection Hs as <- _; exact I.
  - (* Upload *)
    injection Hs as <- _. destruct (upload_frame s r) as (H1 & H2 & H3 & H4 & H5 & H6).
    exact (Inv_frame s _ I H1 H2 H3 H4 H5 H6).
  - (* Tick *)
    injection Hs as <- _. apply (Inv_frame s _ I); simpl; reflexivity || lia.
  - (* TimerFire *)
    destruct (assocN h (timers s)) as [tm|] eqn:Et; [|discriminate].
    destruct (tm_due tm <=? now s)%N; [|discriminate]. injection Hs as <- _.
    pose proof (inv_back s I _ _ (assocN_In _ _ _ Et)) as Hb.
    exact (Inv_remove_one s (tm_request tm) (mkPending h (tm_requester tm))
             (Some (tm_requester tm)) (hostUploadBuffers s) (now s) I Hb
             (fun h' Hh' => ltac:(injection Hh' as <-;
                                  exact (inv_req s I _ _ (assoc_In _ _ _ Hb))))).
Qed.

Lemma run_inv (s : state) (es : list event) (s' : state) (out : list emission) :
  Inv s -> run s es = Some (s', out) -> Inv s'.
Proof.
  revert s out. induction es as [|e es IH]; intros s out I Hr; simpl in Hr.
  - injection Hr as <- _. exact I.
  - destruct (step s e) as [[s1 o1]|] eqn:Hs; [|discriminate].
    destruct (run s1 es) as [[s2 o2]|] eqn:Hr'; [|discriminate].
    injection Hr as <- _. apply (IH s1 o2); [exact (step_inv s e s1 o1 I Hs)|exact Hr'].
Qed.

Lemma reachable_inv (s : state) : reachable s -> Inv s.
Proof. intros (es & out & Hr). exact (run_inv init_state es s out Inv_init Hr). Qed.

(** ** How one step changes the requests and the timers *)

Lemma step_shape (s : state) (e : event) (s' : state) (out : list emission) :
  Inv s -> step s e = Some (s', out) -> shape s s'.
Proof.
  intros I Hs.
  assert (Same : forall s0, pendingRequests s0 = pendingRequests s -> timers s0 = timers s ->
                 next_timer s0 = next_timer s -> uuid_seed s0 = uuid_seed s -> shape s s0)
    by (intros s0 H1 H2 H3 H4; apply sh_same; auto; lia).
  destruct e as [c|c|c|c|c rid|c rid|c|c|c k p|c|c p|r|d|h]; simpl in Hs;
    try (unfold on_socket in Hs; destruct (connected s c) eqn:Hc; [|discriminate];
         apply some_inj in Hs).
  - destruct (valid_sid c && negb (connected s c)); [|discriminate].
    injection Hs as <- _. now apply Same.
  - rewrite (disconnect_state s c I) in Hs. injection Hs as <- _.
    apply (sh_drop _ _ (fun kv => negb (String.eqb (pr_requester (snd kv)) c))
                         (fun h => negb (existsb (N.eqb h) (removed_handles c (pendingRequests s)))));
      reflexivity.
  - unfold register_host in Hs. injection Hs as <- _. now apply Same.
  - unfold request_host in Hs.
    destruct (negb (js_truthy (hostSocketId s))); [injection Hs as <- _; now apply Same|].
    destruct (is_host (hostSocketId s) c); [injection Hs as <- _; now apply Same|].
    injection Hs as <- _. eapply sh_add; simpl; try reflexivity.
    apply js_set_absent, fresh_request_absent, I.
  - unfold release_host in Hs. destruct (js_get (pendingRequests s) rid) as [q|n|].
    + injection Hs as <- _.
      apply (sh_drop _ _ (fun kv => negb (String.eqb (fst kv) rid))
                           (fun h => negb (N.eqb h (pr_timeout q)))); reflexivity.
    + injection Hs as <- _. now apply Same.
    + injection Hs as <- _. now apply Same.
  - unfold deny_host in Hs. destruct (js_get (pendingRequests s) rid) as [q|n|].
    + injection Hs as <- _.
      apply (sh_drop _ _ (fun kv => negb (String.eqb (fst kv) rid))
                           (fun h => negb (N.eqb h (pr_timeout q)))); reflexivity.
    + injection Hs as <- _. now apply Same.
    + injection Hs as <- _. now apply Same.
  - rewrite (cancel_state s c I) in Hs. injection Hs as <- _.
    apply (sh_drop _ _ (fun kv => negb (String.eqb (pr_requester (snd kv)) c))
                         (fun h => negb (existsb (N.eqb h) (removed_handles c (pendingRequests s)))));
      reflexivity.
  - unfold give_up_host in Hs. destruct (is_host (hostSocketId s) c);
      injection Hs as <- _; now apply Same.
  - unfold relay in Hs. destruct k; try destruct (is_host (hostSocketId s) c);
      injection Hs as <- _; now apply Same.
  - unfold product_upload_complete in Hs.
    destruct (js_get (hostUploadBuffers s) c) as [l|n|];
      [destruct (0 <? length l)%nat| |]; injection Hs as <- _; now apply Same.
  - unfold browse_selection in Hs. destruct (is_host (hostSocketId s) c);
      injection Hs as <- _; now apply Same.
  - injection Hs as <- _. destruct (upload_frame s r) as (H1 & H2 & H3 & H4 & H5 & H6).
    now apply sh_same.
  - injection Hs as <- _. now apply Same.
  - destruct (assocN h (timers s)) as [tm|]; [|discriminate].
    destruct (tm_due tm <=? now s)%N; [|discriminate]. injection Hs as <- _.
    apply (sh_drop _ _ (fun kv => negb (String.eqb (fst kv) (tm_request tm)))
                         (fun h' => negb (N.eqb h' h))); reflexivity.
Qed.

Lemma assoc_filter_cases {V} (P : string * V -> bool) k l :
  NoDup (map fst l) -> assoc k (filter P l) = assoc k l \/ assoc k (filter P l) = None.
Proof.
  induction l as [|[k0 v0] l IH]; simpl; intros Hnd; [now left|].
  inversion Hnd as [|? ? Hnot Hnd']; subst.
  destruct (String.eqb k0 k) eqn:E.
  - apply String.eqb_eq in E; subst k0. destruct (P (k, v0)); simpl.
    + left. now rewrite String.eqb_refl.
    + right. apply assoc_none_notin. intros Hin. apply Hnot.
      apply in_map_iff in Hin. destruct Hin as (kv & <- & Hin).
      apply filter_In in Hin. apply in_map. tauto.
  - destruct (P (k0, v0)); simpl; [rewrite E|]; now apply IH.
Qed.

Lemma assocN_filter_cases {V} (f : N -> bool) k (l : list (N * V)) :
  assocN k (filter (fun ht => f (fst ht)) l) = assocN k l \/
  assocN k (filter (fun ht => f (fst ht)) l) = None.
Proof.
  destruct (f k) eqn:Hf; [left; now apply assocN_filter|right; now apply assocN_filter_none].
Qed.

(** A request id below the uuid counter keeps its record or loses it, and
    once lost it is never re-created. *)
Lemma run_request_persists (s1 : state) (es : list event) (s2 : state) (out : list emission)
    rid p m :
  Inv s1 -> run s1 es = Some (s2, out) -> (m < uuid_seed s1)%N -> rid = uuidv4 m ->
  (assoc rid (pendingRequests s1) = Some p \/ assoc rid (pendingRequests s1) = None) ->
  assoc rid (pendingRequests s2) = Some p \/ assoc rid (pendingRequests s2) = None.
Proof.
  revert s1 out. induction es as [|e es IH]; intros s1 out I Hr Hm Hrid Hp; simpl in Hr.
  - injection Hr as <- _. exact Hp.
  - destruct (step s1 e) as [[s0 o0]|] eqn:Hs; [|discriminate].
    destruct (run s0 es) as [[s3 o3]|] eqn:Hr'; [|discriminate]. injection Hr as <- _.
    pose proof (step_inv s1 e s0 o0 I Hs) as I0.
    destruct (step_shape s1 e s0 o0 I Hs) as [H1 _ _ Hsd|P f H1 _ _ Hsd|x tm H1 _ _ Hsd].
    + apply (IH s0 o3 I0 Hr'); [lia|exact Hrid|now rewrite H1].
    + apply (IH s0 o3 I0 Hr'); [lia|exact Hrid|]. rewrite H1.
      destruct (assoc_filter_cases P rid (pendingRequests s1) (inv_keys s1 I)) as [->| ->];
        auto.
    + apply (IH s0 o3 I0 Hr'); [lia|exact Hrid|]. rewrite H1.
      assert (Hne : rid <> uuidv4 (uuid_seed s1)) by (intros Heq; subst rid;
        apply uuidv4_inj in Heq; lia).
      destruct Hp as [Hp|Hp].
      * left. now apply assoc_app_l.
      * right. rewrite assoc_app_none by exact Hp.
        change (assoc rid [(uuidv4 (uuid_seed s1), x)])
          with (if String.eqb (uuidv4 (uuid_seed s1)) rid then Some x else None).
        destruct (String.eqb (uuidv4 (uuid_seed s1)) rid) eqn:E; [|reflexivity].
        apply String.eqb_eq in E. congruence.
Qed.

(** A timer handle below the handle counter keeps its timer or loses it,
    and once cleared it is never active again. *)
Lemma run_timer_persists (s1 : state) (es : list event) (s2 : state) (out : list emission)
    h tm :
  Inv s1 -> run s1 es = Some (s2, out) -> (h < next_timer s1)%N ->
  (assocN h (timers s1) = Some tm \/ assocN h (timers s1) = None) ->
  assocN h (timers s2) = Some tm \/ assocN h (timers s2) = None.
Proof.
  revert s1 out. induction es as [|e es IH]; intros s1 out I Hr Hh Ht; simpl in Hr.
  - injection Hr as <- _. exact Ht.
  - destruct (step s1 e) as [[s0 o0]|] eqn:Hs; [|discriminate].
    destruct (run s0 es) as [[s3 o3]|] eqn:Hr'; [|discriminate]. injection Hr as <- _.
    pose proof (step_inv s1 e s0 o0 I Hs) as I0.
    destruct (step_shape s1 e s0 o0 I Hs) as [_ H2 Hn _|P f _ H2 Hn _|x tm' _ H2 Hn _].
    + apply (IH s0 o3 I0 Hr'); [lia|now rewrite H2].
    + apply (IH s0 o3 I0 Hr'); [lia|]. rewrite H2.
      destruct (assocN_filter_cases f h (timers s1)) as [->| ->]; auto.
    + apply (IH s0 o3 I0 Hr'); [lia|]. rewrite H2.
      destruct Ht as [Ht|Ht].
      * left. now apply assocN_app_l.
      * right. rewrite assocN_app_none by exact Ht.
        change (assocN h [(next_timer s1, tm')])
          with (if N.eqb (next_timer s1) h then Some tm' else None).
        destruct (N.eqb (next_timer s1) h) eqn:E; [|reflexivity].
        apply N.eqb_eq in E. lia.
Qed.

(** ** C5: a single host *)

Lemma filter_eqb_notin (h : string) (l : list string) :
  ~ In h l -> filter (fun c => String.eqb h c) l = [].
Proof.
  induction l as [|y l IH]; simpl; intros Hn; [reflexivity|].
  destruct (String.eqb h y) eqn:E.
  - apply String.eqb_eq in E. subst y. exfalso. apply Hn. now left.
  - apply IH. intros Hin. apply Hn. now right.
Qed.

Lemma filter_eqb_nodup (h : string) (l : list string) :
  NoDup l -> length (filter (fun c => String.eqb h c) l) <= 1.
Proof.
  induction l as [|x l IH]; simpl; intros Hnd; [lia|].
  inversion Hnd as [|? ? Hnot Hnd']; subst.
  destruct (String.eqb h x) eqn:E; simpl; [|now apply IH].
  apply String.eqb_eq in E. subst x. rewrite filter_eqb_notin by exact Hnot. simpl. lia.
Qed.

(** C5: in every reachable state at most one connected socket [c]
    satisfies [hostSocketId === c]. *)
Theorem single_host (s : state) :
  reachable s -> length (filter (fun c => is_host (hostSocketId s) c) (sockets s)) <= 1.
Proof.
  intros Hr. pose proof (inv_nodup s (reachable_inv s Hr)) as Hnd.
  destruct (hostSocketId s) as [h|]; simpl.
  - now apply filter_eqb_nodup.
  - clear. induction (sockets s); simpl; [lia|exact IHl].
Qed.

(** ** C4: disconnect *)

Lemma filter_all_true {A} (f : A -> bool) l : (forall x, In x l -> f x = true) -> filter f l = l.
Proof.
  induction l as [|x l IH]; simpl; intros Hall; [reflexivity|].
  rewrite (Hall x (or_introl eq_refl)). f_equal. apply IH. auto.
Qed.

(** C4: when [H] disconnects from a reachable state: if [H] is the host,
    the host becomes none and exactly one emission, [host-changed] with
    [null] to all, is made; otherwise the host is unchanged and nothing is
    emitted.  Every pending request of [H] is removed and its timer is no
    longer active; the others stay.  If [H] is neither host nor requester,
    neither the host nor the pending requests (nor the timers) change. *)
Theorem disconnect_spec (s s' : state) (H : conn) (out : list emission) :
  reachable s -> step s (Disconnect H) = Some (s', out) ->
  (hostSocketId s = Some H -> hostSocketId s' = None /\ out = [(ToAll, HostChanged None)]) /\
  (hostSocketId s <> Some H -> hostSocketId s' = hostSocketId s /\ out = []) /\
  pendingRequests s' = kept H (pendingRequests s) /\
  (forall rid p, In (rid, p) (pendingRequests s) -> pr_requester p = H ->
     assocN (pr_timeout p) (timers s') = None) /\
  ((forall rid p, In (rid, p) (pendingRequests s) -> pr_requester p <> H) ->
     pendingRequests s' = pendingRequests s /\ timers s' = timers s).
Proof.
  intros Hr Hs. pose proof (reachable_inv s Hr) as I.
  simpl in Hs. unfold on_socket in Hs. destruct (connected s H); [|discriminate].
  apply some_inj in Hs. rewrite (disconnect_state s H I) in Hs. injection Hs as <- <-.
  simpl. split; [|split; [|split; [reflexivity|split]]].
  - intros ->. simpl. rewrite String.eqb_refl. split; reflexivity.
  - intros Hne. destruct (hostSocketId s) as [h|]; simpl; [|split; reflexivity].
    destruct (String.eqb h H) eqn:E; [apply String.eqb_eq in E; congruence|].
    split; reflexivity.
  - intros rid p Hin Hreq. unfold drop_handles.
    apply (assocN_filter_none (fun h => negb (existsb (N.eqb h) (removed_handles H (pendingRequests s))))).
    apply negb_false_iff, existsb_exists. exists (pr_timeout p). split; [|apply N.eqb_refl].
    unfold removed_handles, removed.
    apply (in_map (fun kv => pr_timeout (snd kv)) _ (rid, p)). apply filter_In.
    split; [exact Hin|]. simpl. now apply String.eqb_eq.
  - intros Hnone.
    assert (Hrm : removed H (pendingRequests s) = []).
    { unfold removed. rewrite (filter_ext_in _ (fun _ => false)); [apply filter_false|].
      intros [k p] Hin. simpl.
      apply Bool.not_true_iff_false. intros Heq. apply String.eqb_eq in Heq.
      exact (Hnone k p Hin Heq). }
    split.
    + unfold kept. apply filter_all_true. intros [k p] Hin. simpl.
      apply negb_true_iff, String.eqb_neq. exact (Hnone k p Hin).
    + unfold drop_handles, removed_handles. rewrite Hrm. simpl. apply filter_true_id.
Qed.

(** ** C2: auto-grant on timeout *)

Lemma filter_eqb_single (a : string) (l : list string) :
  NoDup l -> In a l -> filter (fun x => String.eqb x a) l = [a].
Proof.
  induction l as [|x l IH]; simpl; intros Hnd Hin; [contradiction|].
  inversion Hnd as [|? ? Hnot Hnd']; subst.
  destruct (String.eqb x a) eqn:E.
  - apply String.eqb_eq in E. subst x. f_equal.
    rewrite (filter_ext _ (fun c => String.eqb a c)) by (intros c; apply String.eqb_sym).
    now apply filter_eqb_notin.
  - destruct Hin as [->|Hin]; [now rewrite String.eqb_refl in E|]. now apply IH.
Qed.

Lemma host_truthy (s : state) (A : conn) :
  Inv s -> hostSocketId s = Some A -> js_truthy (Some A) = true.
Proof.
  intros I Hh. pose proof (inv_valid s I A (inv_host s I A Hh)) as Hv.
  unfold valid_sid in Hv. apply andb_true_iff in Hv as [Hv _]. exact Hv.
Qed.

Lemma run_timer_gone (s1 : state) (es : list event) (s2 : state) (out : list emission) h :
  Inv s1 -> run s1 es = Some (s2, out) -> (h < next_timer s1)%N ->
  assocN h (timers s1) = None -> assocN h (timers s2) = None.
Proof.
  intros I Hr Hh Hn.
  destruct (run_timer_persists s1 es s2 out h (mkTimer 0 "" "") I Hr Hh (or_intror Hn))
    as [H1|H1]; [|exact H1].
  destruct (run_timer_persists s1 es s2 out h (mkTimer 1 "" "") I Hr Hh (or_intror Hn))
    as [H2|H2]; congruence.
Qed.

(** C2: from a reachable state whose host is [A], a [request-host] from
    [B <> A] creates a pending request with a request id that is not yet a
    key, and a timer due 30000 ms later; the only emission is the transfer
    request to [A], and the only recipient is [A].  After any later events
    that leave the request pending, once the clock reaches the due time the
    timer fires: the host becomes [B], [host-changed B] goes to all, and the
    request is removed. *)
Theorem request_host_auto_grant (s s1 : state) (A B : conn) (out : list emission) :
  reachable s -> hostSocketId s = Some A -> A <> B ->
  step s (RequestHost B) = Some (s1, out) ->
  exists rid h,
    out = [(ToRoom (Some A), HostTransferRequest rid B)] /\
    recipients (sockets s1) (ToRoom (Some A)) = [A] /\
    ~ In rid (map fst (pendingRequests s)) /\
    pendingRequests s1 = pendingRequests s ++ [(rid, mkPending h B)] /\
    hostSocketId s1 = Some A /\
    assocN h (timers s1) = Some (mkTimer (now s + TIMEOUT_MS) B rid) /\
    (forall es s2 out2, run s1 es = Some (s2, out2) ->
       assoc rid (pendingRequests s2) <> None ->
       (now s + TIMEOUT_MS <= now s2)%N ->
       exists s3, step s2 (TimerFire h) = Some (s3, [(ToAll, HostChanged (Some B))]) /\
                  hostSocketId s3 = Some B /\ assoc rid (pendingRequests s3) = None).
Proof.
  intros Hr Hh Hne Hs. pose proof (reachable_inv s Hr) as I.
  pose proof (step_inv s _ s1 out I Hs) as I1.
  simpl in Hs. unfold on_socket in Hs. destruct (connected s B); [|discriminate].
  apply some_inj in Hs. unfold request_host in Hs.
  rewrite Hh, (host_truthy s A I Hh) in Hs. simpl in Hs.
  replace (String.eqb A B) with false in Hs by (symmetry; now apply String.eqb_neq).
  pose proof (fresh_request_absent s I) as Hfresh.
  rewrite (js_set_absent _ _ _ Hfresh) in Hs.
  set (rid := uuidv4 (uuid_seed s)) in *. set (h := next_timer s) in *.
  injection Hs as Hs1 Hout. subst s1 out.
  assert (Hnone : assocN h (timers s) = None)
    by (apply assocN_none_lt; exact (inv_handle s I)).
  assert (Htm : assocN h (timers s ++ [(h, mkTimer (now s + TIMEOUT_MS) B rid)]) =
                Some (mkTimer (now s + TIMEOUT_MS) B rid))
    by (rewrite assocN_app_none by exact Hnone; simpl; now rewrite N.eqb_refl).
  exists rid, h. split; [reflexivity|]. split.
  { simpl. apply filter_eqb_single; [apply (inv_nodup s I)|exact (inv_host s I A Hh)]. }
  split.
  { intros Hin. apply in_map_iff in Hin. destruct Hin as ([k p] & Hk & Hin).
    simpl in Hk. subst k. apply In_assoc in Hin; [congruence|apply (inv_keys s I)]. }
  split; [reflexivity|]. split; [reflexivity|]. split; [exact Htm|].
  intros es s2 out2 Hrun Hpend Hnow.
  set (s1 := mkState (Some A) (pendingRequests s ++ [(rid, mkPending h B)])
                     (hostUploadBuffers s) (timers s ++ [(h, mkTimer (now s + TIMEOUT_MS) B rid)])
                     (N.succ h) (N.succ (uuid_seed s)) (now s) (sockets s)) in *.
  assert (Hp1 : assoc rid (pendingRequests s1) = Some (mkPending h B)).
  { simpl. rewrite assoc_app_none by exact Hfresh. simpl. now rewrite String.eqb_refl. }
  destruct (run_request_persists s1 es s2 out2 rid (mkPending h B) (uuid_seed s) I1 Hrun)
    as [Hp2|Hp2]; simpl; try lia; try reflexivity; [now left| |contradiction].
  destruct (run_timer_persists s1 es s2 out2 h (mkTimer (now s + TIMEOUT_MS) B rid) I1 Hrun)
    as [Ht2|Ht2]; simpl; try lia; [now left| |].
  - exists (fst (auto_transfer s2 h (mkTimer (now s + TIMEOUT_MS) B rid))).
    simpl. rewrite Ht2. simpl. replace (now s + TIMEOUT_MS <=? now s2)%N with true
      by (symmetry; apply N.leb_le; exact Hnow).
    split; [reflexivity|]. split; [reflexivity|]. apply assoc_js_delete_same.
  - exfalso. pose proof (run_inv s1 es s2 out2 I1 Hrun) as I2.
    destruct (inv_timer s2 I2 rid (mkPending h B) (assoc_In _ _ _ Hp2)) as [d Hd].
    simpl in Hd. congruence.
Qed.

(** ** C8: cancelling a request invalidates its timer *)

(** C8: from a reachable state whose host is [A], [cancel-host-request]
    from [B] leaves the host [A], removes exactly the pending requests of
    [B], notifies [A] with [host-request-cancelled] once per removed
    request (in order), and clears the timer of each: after any later
    events, firing that timer handle is impossible. *)
Theorem cancel_before_timeout (s s' : state) (A B : conn) (out : list emission) :
  reachable s -> hostSocketId s = Some A ->
  step s (CancelHostRequest B) = Some (s', out) ->
  hostSocketId s' = Some A /\
  pendingRequests s' = kept B (pendingRequests s) /\
  out = map (fun kv => (ToRoom (Some A), HostRequestCancelled (fst kv)))
            (removed B (pendingRequests s)) /\
  (forall rid p, In (rid, p) (pendingRequests s) -> pr_requester p = B ->
     assocN (pr_timeout p) (timers s') = None /\
     forall es s'' out'', run s' es = Some (s'', out'') ->
       step s'' (TimerFire (pr_timeout p)) = None).
Proof.
  intros Hr Hh Hs. pose proof (reachable_inv s Hr) as I.
  pose proof (step_inv s _ s' out I Hs) as I'.
  simpl in Hs. unfold on_socket in Hs. destruct (connected s B); [|discriminate].
  apply some_inj in Hs. rewrite (cancel_state s B I) in Hs.
  rewrite Hh, (host_truthy s A I Hh) in Hs. injection Hs as Hs' Hout. subst s' out.
  simpl. split; [exact Hh|]. split; [reflexivity|]. split; [reflexivity|].
  intros rid p Hin Hreq.
  assert (Hgone : assocN (pr_timeout p)
                    (drop_handles (removed_handles B (pendingRequests s)) (timers s)) = None).
  { unfold drop_handles.
    apply (assocN_filter_none (fun h => negb (existsb (N.eqb h) (removed_handles B (pendingRequests s))))).
    apply negb_false_iff, existsb_exists. exists (pr_timeout p). split; [|apply N.eqb_refl].
    unfold removed_handles, removed.
    apply (in_map (fun kv => pr_timeout (snd kv)) _ (rid, p)). apply filter_In.
    split; [exact Hin|]. simpl. now apply String.eqb_eq. }
  split; [exact Hgone|].
  intros es s'' out'' Hrun.
  assert (Hlt : (pr_timeout p < next_timer s)%N).
  { destruct (inv_timer s I _ _ Hin) as [d Hd].
    exact (inv_handle s I _ _ (assocN_In _ _ _ Hd)). }
  pose proof (run_timer_gone _ es s'' out'' (pr_timeout p) I' Hrun Hlt Hgone) as Hn.
  simpl. now rewrite Hn.
Qed.

(** ** Witnesses on concrete runs *)

Lemma host_gated_relay_witness :
  step st_hosted (Relay "A" ModelTransform JNull) =
    Some (st_hosted, [(ToAllExcept "A", Relayed ModelTransform JNull)]) /\
  step st_hosted (Relay "B" ResetAll JNull) = Some (st_hosted, []).
Proof.
  split.
  - exact (proj1 (proj1 (host_gated_relay st_hosted "A" ModelTransform JNull eq_refl
                           (or_introl eq_refl)) eq_refl)).
  - apply (proj2 (host_gated_relay st_hosted "B" ResetAll JNull eq_refl
                    (or_intror (or_intror eq_refl)))).
    discriminate.
Defined.

Lemma pointer_relay_ungated_witness :
  step st_hosted (Relay "B" HostPointerUpdate JNull) =
    Some (st_hosted, [(ToAllExcept "B", Relayed HostPointerUpdate JNull)]) /\
  (forall x, In x (recipients (sockets st_hosted) (ToAllExcept "B")) <->
             In x (sockets st_hosted) /\ x <> "B").
Proof.
  exact (pointer_relay_ungated st_hosted "B" HostPointerUpdate JNull eq_refl (or_intror eq_refl)).
Defined.

Lemma product_upload_complete_to_all_witness :
  step st_hosted (BrowseSelection "A" (JArr [])) =
    Some (st_hosted, [(ToAll, ProductUploadComplete (JArr []) "A")]) /\
  (fst (ToAll, ProductUploadComplete (JArr []) "A") = ToAll /\
   In "A" (recipients (sockets st_hosted) (fst (ToAll, ProductUploadComplete (JArr []) "A"))) /\
   recipients (sockets st_hosted) (fst (ToAll, ProductUploadComplete (JArr []) "A")) =
     sockets st_hosted).
Proof.
  split; [reflexivity|].
  apply (product_upload_complete_to_all st_hosted st_hosted "A" (JArr [])
           [(ToAll, ProductUploadComplete (JArr []) "A")] (or_intror eq_refl)).
  left. reflexivity.
Defined.

Lemma upload_flush_ignore_host_witness :
  valid_sid "B" = true /\ hostSocketId st_hosted = Some "A" /\
  assoc "B" (hostUploadBuffers
               (fst (upload st_hosted (mkUpload (Some "p.glb") "http://h" (Some "B") (Some "host"))))) =
    Some [mkPart "http://h/uploads/p.glb" "p.glb" (uuidv4 0) "B"].
Proof.
  split; [reflexivity|]. split; [reflexivity|].
  pose proof (proj1 (upload_flush_ignore_host st_hosted "B" "http://h" "p.glb" eq_refl)) as H.
  destruct H as (_ & _ & H). vm_compute in H. vm_compute. exact H.
Defined.

Lemma flush_after_host_uploads_witness :
  valid_sid "A" = true /\ connected st_hosted "A" = true /\
  buffer_of (hostUploadBuffers st_hosted) "A" = [] /\
  exists s1,
    run st_hosted (map (host_upload "A") [("http://h", "a.glb"); ("http://h", "b.glb")]
                   ++ [ProductUploadCompleteEv "A"]) =
      Some (s1, [(ToAll, ProductUploadComplete
                   (JArr (map part_json (host_parts 0 "A"
                      [("http://h", "a.glb"); ("http://h", "b.glb")]))) "A")]) /\
    length (host_parts 0 "A" [("http://h", "a.glb"); ("http://h", "b.glb")]) = 2%nat /\
    assoc "A" (hostUploadBuffers s1) = Some [] /\
    step s1 (ProductUploadCompleteEv "A") = Some (s1, []).
Proof.
  split; [reflexivity|]. split; [reflexivity|]. split; [reflexivity|].
  exact (flush_after_host_uploads st_hosted "A" [("http://h", "a.glb"); ("http://h", "b.glb")]
           eq_refl eq_refl eq_refl ltac:(discriminate)).
Defined.

Lemma single_host_witness :
  reachable st_requested /\
  length (filter (fun c => is_host (hostSocketId st_requested) c) (sockets st_requested)) <= 1.
Proof.
  assert (Hr : reachable st_requested).
  { exists demo1. eexists. vm_compute. reflexivity. }
  split; [exact Hr|]. exact (single_host st_requested Hr).
Defined.

Lemma request_host_auto_grant_witness :
  reachable st_hosted /\ hostSocketId st_hosted = Some "A" /\
  step st_hosted (RequestHost "B") =
    Some (st_requested, [(ToRoom (Some "A"), HostTransferRequest (uuidv4 0) "B")]) /\
  exists s3, step (st_after (demo1 ++ [Tick 30000])) (TimerFire 0) =
               Some (s3, [(ToAll, HostChanged (Some "B"))]) /\
             hostSocketId s3 = Some "B".
Proof.
  assert (Hr : reachable st_hosted).
  { exists demo_hosted. eexists. vm_compute. reflexivity. }
  assert (Hs : step st_hosted (RequestHost "B") =
    Some (st_requested, [(ToRoom (Some "A"), HostTransferRequest (uuidv4 0) "B")])).
  { vm_compute. reflexivity. }
  split; [exact Hr|]. split; [reflexivity|]. split; [exact Hs|].
  destruct (request_host_auto_grant st_hosted st_requested "A" "B" _ Hr eq_refl
              ltac:(discriminate) Hs) as (rid & h & Hout & _ & _ & Hpend & _ & _ & Hlate).
  injection Hout as Hrid. subst rid.
  vm_compute in Hpend. injection Hpend as Hh. subst h.
  destruct (Hlate [Tick 30000] (st_after (demo1 ++ [Tick 30000])) []) as (s3 & Hf & Hh & _).
  - vm_compute. reflexivity.
  - vm_compute. discriminate.
  - apply N.leb_le. vm_compute. reflexivity.
  - exists s3. split; [exact Hf | exact Hh].
Defined.

Lemma disconnect_spec_witness :
  reachable st_requested /\
  step st_requested (Disconnect "A") =
    Some (st_after (demo1 ++ [Disconnect "A"]), [(ToAll, HostChanged None)]) /\
  ((hostSocketId st_requested = Some "A" ->
      hostSocketId (st_after (demo1 ++ [Disconnect "A"])) = None /\
      [(ToAll, HostChanged None)] = [(ToAll, HostChanged None)]) /\
   (hostSocketId st_requested <> Some "A" ->
      hostSocketId (st_after (demo1 ++ [Disconnect "A"])) = hostSocketId st_requested /\
      [(ToAll, HostChanged None)] = []) /\
   pendingRequests (st_after (demo1 ++ [Disconnect "A"])) =
     kept "A" (pendingRequests st_requested) /\
   (forall rid p, In (rid, p) (pendingRequests st_requested) -> pr_requester p = "A" ->
      assocN (pr_timeout p) (timers (st_after (demo1 ++ [Disconnect "A"]))) = None) /\
   ((forall rid p, In (rid, p) (pendingRequests st_requested) -> pr_requester p <> "A") ->
      pendingRequests (st_after (demo1 ++ [Disconnect "A"])) = pendingRequests st_requested /\
      timers (st_after (demo1 ++ [Disconnect "A"])) = timers st_requested)).
Proof.
  assert (Hr : reachable st_requested).
  { exists demo1. eexists. vm_compute. reflexivity. }
  assert (Hs : step st_requested (Disconnect "A") =
    Some (st_after (demo1 ++ [Disconnect "A"]), [(ToAll, HostChanged None)])).
  { vm_compute. reflexivity. }
  split; [exact Hr|]. split; [exact Hs|].
  exact (disconnect_spec st_requested _ "A" _ Hr Hs).
Defined.

Lemma cancel_before_timeout_witness :
  reachable st_requested /\ hostSocketId st_requested = Some "A" /\
  step st_requested (CancelHostRequest "B") =
    Some (st_after (demo1 ++ [CancelHostRequest "B"]),
          [(ToRoom (Some "A"), HostRequestCancelled (uuidv4 0))]) /\
  (hostSocketId (st_after (demo1 ++ [CancelHostRequest "B"])) = Some "A" /\
   pendingRequests (st_after (demo1 ++ [CancelHostRequest "B"])) =
     kept "B" (pendingRequests st_requested) /\
   [(ToRoom (Some "A"), HostRequestCancelled (uuidv4 0))] =
     map (fun kv => (ToRoom (Some "A"), HostRequestCancelled (fst kv)))
         (removed "B" (pendingRequests st_requested)) /\
   (forall rid p, In (rid, p) (pendingRequests st_requested) -> pr_requester p = "B" ->
      assocN (pr_timeout p) (timers (st_after (demo1 ++ [CancelHostRequest "B"]))) = None /\
      forall es s'' out'', run (st_after (demo1 ++ [CancelHostRequest "B"])) es = Some (s'', out'') ->
        step s'' (TimerFire (pr_timeout p)) = None)).
Proof.
  assert (Hr : reachable st_requested).
  { exists demo1. eexists. vm_compute. reflexivity. }
  assert (Hs : step st_requested (CancelHostRequest "B") =
    Some (st_after (demo1 ++ [CancelHostRequest "B"]),
          [(ToRoom (Some "A"), HostRequestCancelled (uuidv4 0))])).
  { vm_compute. reflexivity. }
  split; [exact Hr|]. split; [reflexivity|]. split; [exact Hs|].
  exact (cancel_before_timeout st_requested _ "A" "B" _ Hr eq_refl Hs).
Defined.

(** ** The file endpoints *)

Lemma string_length_app (p q : string) :
  String.length (p ++ q) = (String.length p + String.length q)%nat.
Proof. induction p as [|a p IH]; simpl; [reflexivity|now rewrite IH]. Qed.

Lemma substring_whole (q : string) : substring 0 (String.length q) q = q.
Proof. induction q as [|a q IH]; simpl; [reflexivity|now rewrite IH]. Qed.

Lemma substring_app_length (p q : string) :
  substring (String.length p) (String.length q) (p ++ q) = q.
Proof. induction p as [|a p IH]; simpl; [apply substring_whole|exact IH]. Qed.

Lemma substring_split (s : string) (n : nat) :
  (n <= String.length s)%nat ->
  s = (substring 0 n s ++ substring n (String.length s - n) s)%string.
Proof.
  revert n. induction s as [|a s IH]; intros n Hn; simpl in *.
  - destruct n; [reflexivity|lia].
  - destruct n as [|n]; simpl.
    + now rewrite substring_whole.
    + f_equal. apply IH. lia.
Qed.

Lemma ends_with_spec (suffix s : string) :
  ends_with suffix s = true <-> exists p, s = (p ++ suffix)%string.
Proof.
  unfold ends_with. split.
  - intros H. apply andb_true_iff in H as [Hle Heq].
    apply Nat.leb_le in Hle. apply String.eqb_eq in Heq.
    exists (substring 0 (String.length s - String.length suffix) s).
    rewrite (substring_split s (String.length s - String.length suffix)) at 1 by lia.
    f_equal. replace (String.length s - (String.length s - String.length suffix))%nat
      with (String.length suffix) by lia. exact Heq.
  - intros (p & ->). rewrite string_length_app.
    replace (String.length p + String.length suffix - String.length suffix)%nat
      with (String.length p) by lia.
    rewrite substring_app_length, String.eqb_refl, andb_true_r.
    apply Nat.leb_le. lia.
Qed.

Lemma is_model_file_spec (file : string) :
  is_model_file file = true <->
  exists p, file = (p ++ ".glb")%string \/ file = (p ++ ".gltf")%string.
Proof.
  unfold is_model_file. rewrite orb_true_iff, !ends_with_spec. split.
  - intros [(p & H)|(p & H)]; exists p; [left|right]; exact H.
  - intros (p & [H|H]); [left|right]; exists p; exact H.
Qed.

Lemma listed_iff (base : string) (files : list string) (n u : string) :
  In (mkListed n u) (map (fun file => mkListed file (base ++ "/uploads/" ++ file)%string)
                         (filter is_model_file files)) <->
  In n files /\ (exists p, n = (p ++ ".glb")%string \/ n = (p ++ ".gltf")%string) /\
  u = (base ++ "/uploads/" ++ n)%string.
Proof.
  rewrite in_map_iff. split.
  - intros (file & Heq & Hin). injection Heq as <- <-. apply filter_In in Hin as [Hin Hm].
    split; [exact Hin|]. split; [now apply is_model_file_spec|reflexivity].
  - intros (Hin & Hm & ->). exists n. split; [reflexivity|].
    apply filter_In. split; [exact Hin|]. now apply is_model_file_spec.
Qed.


Lemma upload_ok_url (s : state) (r : upload_req) (name url nm : string) :
  up_file r = Some name -> snd (upload s r) = UploadOk url nm ->
  nm = name /\ url = (up_base_url r ++ "/uploads/" ++ name)%string.
Proof.
  intros Hf. unfold upload. rewrite Hf.
  destruct (up_socket_id r) as [id|]; simpl; [|intros [= <- <-]; now split].
  match goal with |- context [if ?b then _ else _] => destruct b end;
    [|simpl; intros [= <- <-]; now split].
  destruct (js_get (hostUploadBuffers s) id); simpl; try discriminate;
    intros [= <- <-]; now split.
Qed.

Lemma store_upload_In (dir : list string) (r : upload_req) (name : string) :
  up_file r = Some name -> In name (store_upload dir r).
Proof.
  intros Hf. unfold store_upload. rewrite Hf.
  destruct (existsb (String.eqb name) dir) eqn:E.
  - apply existsb_exists in E as (x & Hx & Heq). apply String.eqb_eq in Heq. now subst.
  - apply in_app_iff. right. now left.
Qed.

(** An upload answered with [{ url, name }] is stored under its name, and the
    next [/list-uploads] computed with the same base URL lists it with the
    same URL if and only if its name ends in ".glb" or ".gltf". *)
Theorem upload_then_list (s : state) (dir : list string) (pu : option string)
    (proto host name : string) (sid role : option string) (url nm : string) :
  snd (upload s (mkUpload (Some name) (base_url pu proto host) sid role)) = UploadOk url nm ->
  nm = name /\ url = (base_url pu proto host ++ "/uploads/" ++ name)%string /\
  exists l,
    list_uploads (base_url pu proto host)
      (Some (store_upload dir (mkUpload (Some name) (base_url pu proto host) sid role))) =
      ListOk l /\
    (In (mkListed name url) l <->
     exists p, name = (p ++ ".glb")%string \/ name = (p ++ ".gltf")%string).
Proof.
  intros Hup.
  destruct (upload_ok_url s (mkUpload (Some name) (base_url pu proto host) sid role)
              name url nm eq_refl Hup) as [Hnm Hurl]. simpl in Hurl.
  split; [exact Hnm|]. split; [exact Hurl|].
  eexists. split; [reflexivity|]. rewrite listed_iff. split.
  - intros (_ & Hm & _). exact Hm.
  - intros Hm. split; [now apply store_upload_In|]. split; [exact Hm|exact Hurl].
Qed.

(** *** [/delete-all-uploads] *)

Lemma unlink_callbacks_spec (total : nat) (ok : string -> bool) (order : list string) :
  forall d e, (d + e + length order <= total)%nat -> (d + e < total)%nat ->
  unlink_callbacks total ok order d e =
  if Nat.eqb (d + e + length order) total
  then [DeleteAllDone200 (d + length (filter ok order))
                         (e + length (filter (fun f => negb (ok f)) order))]
  else [].
Proof.
  induction order as [|file rest IH]; intros d e Hle Hlt; simpl.
  - destruct (Nat.eqb_spec (d + e + 0) total); [lia|reflexivity].
  - simpl in Hle.
    assert (Hcase : forall d' e', (d' + e' = S (d + e))%nat ->
      (if Nat.eqb (d' + e') total then [DeleteAllDone200 d' e'] else []) ++
        unlink_callbacks total ok rest d' e' =
      if Nat.eqb (d' + e' + length rest) total
      then [DeleteAllDone200 (d' + length (filter ok rest))
                             (e' + length (filter (fun f => negb (ok f)) rest))]
      else []).
    { intros d' e' Hde. destruct (Nat.eqb_spec (d' + e') total) as [E|E].
      - destruct rest as [|x rest]; simpl in Hle; [|lia]. simpl.
        destruct (Nat.eqb_spec (d' + e' + 0) total); [|lia].
        f_equal. f_equal; lia.
      - rewrite (IH d' e') by lia. reflexivity. }
    destruct (ok file) eqn:Hok;
      [rewrite (Hcase (S d) e) by lia | rewrite (Hcase d (S e)) by lia];
      repeat match goal with |- context [Nat.eqb ?a ?b] => destruct (Nat.eqb_spec a b) end;
      try lia; try reflexivity; simpl; rewrite ?Hok; simpl; f_equal; f_equal; lia.
Qed.

Lemma filter_length_le {A} (f : A -> bool) (l : list A) : (length (filter f l) <= length l)%nat.
Proof. induction l as [|x l IH]; simpl; [lia|destruct (f x); simpl; lia]. Qed.

Lemma filter_length_forallb {A} (f : A -> bool) (l : list A) :
  length (filter f l) = length l <-> forallb f l = true.
Proof.
  induction l as [|x l IH]; simpl; [tauto|].
  pose proof (filter_length_le f l). destruct (f x); simpl.
  - rewrite <- IH. lia.
  - split; [lia|discriminate].
Qed.

Lemma Permutation_filter_length {A} (f : A -> bool) (l l' : list A) :
  Permutation l l' -> length (filter f l) = length (filter f l').
Proof.
  induction 1 as [|x l l' _ IH|x y l|l l' l'' _ IH1 _ IH2]; simpl.
  - reflexivity.
  - destruct (f x); simpl; lia.
  - destruct (f x), (f y); simpl; lia.
  - lia.
Qed.

(** [DELETE /delete-all-uploads] on a non-empty directory, whatever the
    order in which the unlinks of the GLB/GLTF files complete: when every
    entry is a GLB/GLTF file, exactly one answer is sent, with the number of
    files deleted and the number that failed; when some entry is not, the
    counter never reaches [files.length] and no answer is ever sent. *)
Theorem delete_all_uploads_answer (files order : list string) (ok : string -> bool) :
  files <> [] -> Permutation order (filter is_model_file files) ->
  delete_all_uploads (Some files) ok order =
  if forallb is_model_file files
  then [DeleteAllDone200 (length (filter ok files))
                         (length (filter (fun f => negb (ok f)) files))]
  else [].
Proof.
  intros Hne Hperm. unfold delete_all_uploads.
  destruct (Nat.eqb_spec (length files) 0) as [E|_].
  { destruct files; [contradiction|discriminate]. }
  assert (Hlen : length order = length (filter is_model_file files))
    by exact (Permutation_length Hperm).
  pose proof (filter_length_le is_model_file files) as Hle.
  assert (Hpos : (0 < length files)%nat) by (destruct files; [contradiction|simpl; lia]).
  rewrite unlink_callbacks_spec by (simpl; lia). simpl.
  rewrite Hlen.
  destruct (forallb is_model_file files) eqn:Hall.
  - pose proof (proj2 (filter_length_forallb is_model_file files) Hall) as Hl.
    rewrite Hl, Nat.eqb_refl.
    rewrite (filter_all_true is_model_file files) in Hperm
      by (intros x Hx; exact (proj1 (forallb_forall _ _) Hall x Hx)).
    rewrite (Permutation_filter_length ok _ _ Hperm),
            (Permutation_filter_length (fun f => negb (ok f)) _ _ Hperm).
    reflexivity.
  - destruct (Nat.eqb_spec (length (filter is_model_file files)) (length files)) as [E|_];
      [|reflexivity].
    apply filter_length_forallb in E. congruence.
Qed.

(** *** [path.join] and [/delete-upload/:filename] *)

Lemma list_ascii_app (a b : string) :
  list_ascii_of_string (a ++ b) = list_ascii_of_string a ++ list_ascii_of_string b.
Proof. induction a as [|ch a IH]; simpl; [reflexivity|now rewrite IH]. Qed.

Lemma split_segs_nonempty (l : list ascii) : split_segs l <> [].
Proof.
  destruct l as [|ch l]; simpl; [discriminate|].
  destruct (Ascii.eqb ch "/"%char); [discriminate|]. destruct (split_segs l); discriminate.
Qed.

Lemma split_segs_app_slash (a b : list ascii) :
  split_segs (a ++ "/"%char :: b) = split_segs a ++ split_segs b.
Proof.
  induction a as [|ch a IH]; [reflexivity|]. simpl. rewrite IH.
  destruct (Ascii.eqb ch "/"%char); [reflexivity|].
  destruct (split_segs a) as [|seg r] eqn:E; [now apply split_segs_nonempty in E|].
  reflexivity.
Qed.

Lemma split_segs_single (x : list ascii) : ~ In "/"%char x -> split_segs x = [x].
Proof.
  induction x as [|ch x IH]; intros Hx; [reflexivity|]. simpl.
  destruct (Ascii.eqb_spec ch "/"%char) as [->|_]; [now destruct Hx; left|].
  rewrite IH by (intros H; apply Hx; now right). reflexivity.
Qed.

Lemma split_segs_noslash (l : list ascii) :
  forall seg, In seg (split_segs l) -> ~ In "/"%char seg.
Proof.
  induction l as [|ch l IH]; simpl; intros seg Hseg.
  - destruct Hseg as [<-|[]]. intros [].
  - destruct (Ascii.eqb_spec ch "/"%char) as [_|Hne].
    + destruct Hseg as [<-|Hseg]; [intros []|exact (IH _ Hseg)].
    + destruct (split_segs l) as [|s0 r] eqn:E.
      * destruct Hseg as [<-|[]]. intros [H|[]]. congruence.
      * destruct Hseg as [<-|Hseg].
        -- intros [H|H]; [congruence|]. apply (IH s0); [now left|exact H].
        -- apply IH. now right.
Qed.

Lemma split_join (xs : list (list ascii)) :
  xs <> [] -> (forall x, In x xs -> ~ In "/"%char x) -> split_segs (join_slash xs) = xs.
Proof.
  induction xs as [|x xs IH]; intros Hne Hx; [contradiction|].
  destruct xs as [|y ys].
  - simpl. apply split_segs_single, Hx. now left.
  - change (join_slash (x :: y :: ys)) with (x ++ "/"%char :: join_slash (y :: ys)).
    rewrite split_segs_app_slash, split_segs_single by (apply Hx; now left).
    rewrite IH; [reflexivity|discriminate|]. intros z Hz. apply Hx. now right.
Qed.

Lemma norm_segs_app (fl : bool) (a b : list (list ascii)) :
  forall st, norm_segs fl st (a ++ b) = norm_segs fl (norm_segs fl st a) b.
Proof.
  induction a as [|seg a IH]; intros st; [reflexivity|]. simpl.
  destruct (seg_eqb seg [] || seg_eqb seg seg_dot); [apply IH|].
  destruct (seg_eqb seg seg_dotdot); [|apply IH].
  destruct st as [|top st]; [apply IH|]. destruct (seg_eqb top seg_dotdot); apply IH.
Qed.

Lemma norm_segs_push (fl : bool) (st : list (list ascii)) (x : list ascii) :
  seg_eqb x [] = false -> seg_eqb x seg_dot = false -> seg_eqb x seg_dotdot = false ->
  norm_segs fl st [x] = x :: st.
Proof. intros H1 H2 H3. simpl. now rewrite H1, H2, H3. Qed.

(** Without [allowAboveRoot] the resolved segments are never "", "." or "..". *)
Lemma norm_segs_good (segs : list (list ascii)) :
  forall st,
  (forall x, In x st ->
     seg_eqb x [] = false /\ seg_eqb x seg_dot = false /\ seg_eqb x seg_dotdot = false) ->
  forall x, In x (norm_segs false st segs) ->
    seg_eqb x [] = false /\ seg_eqb x seg_dot = false /\ seg_eqb x seg_dotdot = false.
Proof.
  induction segs as [|seg segs IH]; intros st Hst; simpl; [exact Hst|].
  destruct (seg_eqb seg []) eqn:E1; [apply IH, Hst|].
  destruct (seg_eqb seg seg_dot) eqn:E2; [apply IH, Hst|]. simpl.
  destruct (seg_eqb seg seg_dotdot) eqn:E3.
  - destruct st as [|top st]; [apply IH; intros _ []|].
    destruct (seg_eqb top seg_dotdot); apply IH; [exact Hst|].
    intros x Hx. apply Hst. now right.
  - apply IH. intros x [<-|Hx]; [tauto|exact (Hst x Hx)].
Qed.

Lemma norm_segs_noslash (fl : bool) (segs : list (list ascii)) :
  forall st, (forall x, In x st -> ~ In "/"%char x) ->
  (forall x, In x segs -> ~ In "/"%char x) ->
  forall x, In x (norm_segs fl st segs) -> ~ In "/"%char x.
Proof.
  induction segs as [|seg segs IH]; intros st Hst Hsegs; simpl; [exact Hst|].
  assert (Hs : forall x, In x segs -> ~ In "/"%char x) by (intros x Hx; apply Hsegs; now right).
  assert (Hseg : ~ In "/"%char seg) by (apply Hsegs; now left).
  destruct (seg_eqb seg [] || seg_eqb seg seg_dot); [now apply IH|].
  destruct (seg_eqb seg seg_dotdot).
  - destruct st as [|top st].
    + apply IH; [|exact Hs]. destruct fl; [intros x [<-|[]]; exact Hseg|intros _ []].
    + destruct (seg_eqb top seg_dotdot); apply IH; try exact Hs.
      * destruct fl; [intros x [<-|Hx]; [exact Hseg|exact (Hst x Hx)]|exact Hst].
      * intros x Hx. apply Hst. now right.
  - apply IH; [|exact Hs]. intros x [<-|Hx]; [exact Hseg|exact (Hst x Hx)].
Qed.

Lemma norm_segs_rev (fl : bool) (S : list (list ascii)) :
  (forall x, In x S ->
     seg_eqb x [] = false /\ seg_eqb x seg_dot = false /\ seg_eqb x seg_dotdot = false) ->
  forall st, norm_segs fl st (rev S) = S ++ st.
Proof.
  induction S as [|x S IH]; intros HS st; [reflexivity|]. simpl.
  rewrite norm_segs_app, IH by (intros y Hy; apply HS; now right).
  destruct (HS x (or_introl eq_refl)) as (H1 & H2 & H3).
  now apply norm_segs_push.
Qed.

Lemma join_slash_snoc (xs : list (list ascii)) (x : list ascii) :
  x <> [] -> join_slash (xs ++ [x]) <> [].
Proof.
  intros Hx. induction xs as [|y xs IH]; [exact Hx|]. simpl.
  destruct (xs ++ [x]) as [|z zs] eqn:E; [destruct xs; discriminate|].
  destruct y; discriminate.
Qed.

Lemma last_is_slash_app (X F : list ascii) :
  F <> [] -> ~ In "/"%char F -> last_is_slash (X ++ F) = false.
Proof.
  intros Hne HF. destruct (exists_last Hne) as (F' & c & ->).
  unfold last_is_slash. rewrite app_assoc, rev_app_distr. simpl.
  destruct (Ascii.eqb_spec c "/"%char) as [->|]; [|reflexivity].
  exfalso. apply HF. apply in_app_iff. right. now left.
Qed.

(** [path.normalize] of an absolute path [D] followed by one plain segment. *)
Lemma normalize_push (D' X : list ascii) :
  X <> [] -> ~ In "/"%char X ->
  seg_eqb X [] = false -> seg_eqb X seg_dot = false -> seg_eqb X seg_dotdot = false ->
  normalize_chars (("/"%char :: D') ++ "/"%char :: X) =
  "/"%char :: join_slash (rev (norm_segs false [] (split_segs D')) ++ [X]).
Proof.
  intros Hne Hs H1 H2 H3. unfold normalize_chars.
  assert (Ht : last_is_slash (("/"%char :: D') ++ "/"%char :: X) = false).
  { replace (("/"%char :: D') ++ "/"%char :: X) with ((("/"%char :: D') ++ ["/"%char]) ++ X)
      by now rewrite <- app_assoc.
    now apply last_is_slash_app. }
  rewrite Ht. simpl (match _ with ch :: _ => _ | [] => _ end). cbn [negb].
  rewrite split_segs_app_slash, (split_segs_single X Hs), norm_segs_app,
          (norm_segs_push false _ X H1 H2 H3).
  simpl (rev (X :: _)).
  destruct (join_slash (rev (norm_segs false [] (split_segs D')) ++ [X]))
    as [|a l] eqn:E; [now apply join_slash_snoc in E|]. reflexivity.
Qed.

(** [path.normalize] of [/S/U/../F]: the ".." removes [U]. *)
Lemma normalize_dotdot (S : list (list ascii)) (U F : list ascii) :
  (forall x, In x S ->
     seg_eqb x [] = false /\ seg_eqb x seg_dot = false /\ seg_eqb x seg_dotdot = false) ->
  (forall x, In x S -> ~ In "/"%char x) ->
  U <> [] -> ~ In "/"%char U ->
  seg_eqb U [] = false -> seg_eqb U seg_dot = false -> seg_eqb U seg_dotdot = false ->
  F <> [] -> ~ In "/"%char F ->
  seg_eqb F [] = false -> seg_eqb F seg_dot = false -> seg_eqb F seg_dotdot = false ->
  normalize_chars (("/"%char :: join_slash (rev S ++ [U])) ++
                   "/"%char :: "."%char :: "."%char :: "/"%char :: F) =
  "/"%char :: join_slash (rev S ++ [F]).
Proof.
  intros HSg HSs HUn HUs HU1 HU2 HU3 HFn HFs HF1 HF2 HF3. unfold normalize_chars.
  assert (Ht : last_is_slash (("/"%char :: join_slash (rev S ++ [U])) ++
                              "/"%char :: "."%char :: "."%char :: "/"%char :: F) = false).
  { replace (("/"%char :: join_slash (rev S ++ [U])) ++
               "/"%char :: "."%char :: "."%char :: "/"%char :: F)
      with ((("/"%char :: join_slash (rev S ++ [U])) ++
               ["/"%char; "."%char; "."%char; "/"%char]) ++ F)
      by now rewrite <- app_assoc.
    now apply last_is_slash_app. }
  rewrite Ht. simpl (match _ with ch :: _ => _ | [] => _ end). cbn [negb].
  rewrite split_segs_app_slash.
  change ("."%char :: "."%char :: "/"%char :: F) with (["."%char; "."%char] ++ "/"%char :: F).
  rewrite split_segs_app_slash, (split_segs_single F HFs).
  rewrite split_join.
  2: { intros E. apply app_eq_nil in E as [_ E]. discriminate. }
  2: { intros x Hx. apply in_app_iff in Hx as [Hx|[<-|[]]]; [apply HSs, in_rev, Hx|exact HUs]. }
  change (split_segs ["."%char; "."%char]) with [seg_dotdot].
  rewrite !norm_segs_app, (norm_segs_rev false S HSg), app_nil_r,
          (norm_segs_push false S U HU1 HU2 HU3).
  simpl (norm_segs false (U :: S) [seg_dotdot]). rewrite HU3.
  rewrite (norm_segs_push false S F HF1 HF2 HF3). simpl (rev (F :: S)).
  destruct (join_slash (rev S ++ [F])) as [|a l] eqn:E; [now apply join_slash_snoc in E|].
  reflexivity.
Qed.

Lemma seg_eqb_string (f : string) (x : list ascii) :
  seg_eqb (list_ascii_of_string f) x = String.eqb f (string_of_list_ascii x).
Proof. unfold seg_eqb. now rewrite string_of_list_ascii_of_string. Qed.

(** [DELETE /delete-upload/:filename] does not confine [filename] to the
    uploads directory: for an absolute [__dirname] and any plain name [f]
    (not empty, ".", ".." and without "/"), the filename "../f" (sent as
    "..%2Ff", which express decodes into the route parameter) resolves to
    [path.join(__dirname, f)], next to the uploads directory; when that file
    exists and can be unlinked, it is deleted and the answer is 200. *)
Theorem delete_upload_parent (dirname f : string) (files : list string)
    (unlink_ok : string -> bool) :
  (exists d, dirname = String "/"%char d) ->
  f <> "" -> f <> "." -> f <> ".." -> ~ In "/"%char (list_ascii_of_string f) ->
  path_join (upload_dir dirname) ("../" ++ f) = path_join dirname f /\
  (In (path_join dirname f) files -> unlink_ok (path_join dirname f) = true ->
   delete_upload (upload_dir dirname) files unlink_ok ("../" ++ f) =
     (filter (fun p => negb (String.eqb p (path_join dirname f))) files,
      Deleted200 ("../" ++ f))).
Proof.
  intros (d & ->) Hf0 Hf1 Hf2 Hfs.
  set (F := list_ascii_of_string f).
  set (D' := list_ascii_of_string d).
  set (S := norm_segs false [] (split_segs D')).
  set (U := list_ascii_of_string "uploads").
  assert (HFn : F <> []) by (intros E; apply Hf0; rewrite <- (string_of_list_ascii_of_string f);
                             fold F; now rewrite E).
  assert (HF1 : seg_eqb F [] = false) by (unfold F; rewrite seg_eqb_string; now apply String.eqb_neq).
  assert (HF2 : seg_eqb F seg_dot = false)
    by (unfold F; rewrite seg_eqb_string; now apply String.eqb_neq).
  assert (HF3 : seg_eqb F seg_dotdot = false)
    by (unfold F; rewrite seg_eqb_string; now apply String.eqb_neq).
  assert (HUs : ~ In "/"%char U) by (unfold U; simpl; intuition discriminate).
  assert (HSg : forall x, In x S ->
     seg_eqb x [] = false /\ seg_eqb x seg_dot = false /\ seg_eqb x seg_dotdot = false)
    by (apply norm_segs_good; intros _ []).
  assert (HSs : forall x, In x S -> ~ In "/"%char x)
    by (apply norm_segs_noslash; [intros _ []|apply split_segs_noslash]).
  assert (Hup : upload_dir (String "/"%char d) =
                string_of_list_ascii ("/"%char :: join_slash (rev S ++ [U]))).
  { unfold upload_dir, path_join.
    replace (String.eqb (String "/" d) "") with false by reflexivity.
    replace (String.eqb "uploads" "") with false by reflexivity.
    replace (String.eqb (String "/" d ++ "/" ++ "uploads") "") with false by reflexivity.
    cbv iota beta. rewrite !list_ascii_app.
    change (list_ascii_of_string (String "/" d)) with ("/"%char :: D').
    change (list_ascii_of_string "/") with ["/"%char].
    change (list_ascii_of_string "uploads") with U.
    change (("/"%char :: D') ++ ["/"%char] ++ U) with (("/"%char :: D') ++ "/"%char :: U).
    rewrite (normalize_push D' U); try discriminate; try exact HUs; reflexivity. }
  assert (Hpath : path_join (upload_dir (String "/"%char d)) ("../" ++ f) =
                  path_join (String "/"%char d) f).
  { rewrite Hup. unfold path_join.
    set (UD := string_of_list_ascii ("/"%char :: join_slash (rev S ++ [U]))).
    replace (String.eqb UD "") with false by reflexivity.
    replace (String.eqb ("../" ++ f) "") with false by reflexivity.
    replace (String.eqb (UD ++ "/" ++ "../" ++ f) "") with false by reflexivity.
    replace (String.eqb (String "/" d) "") with false by reflexivity.
    replace (String.eqb f "") with false by (symmetry; now apply String.eqb_neq).
    replace (String.eqb (String "/" d ++ "/" ++ f) "") with false by reflexivity.
    cbv iota beta. rewrite !list_ascii_app. unfold UD.
    rewrite list_ascii_of_string_of_list_ascii.
    change (list_ascii_of_string "/") with ["/"%char].
    change (list_ascii_of_string "../") with ["."%char; "."%char; "/"%char].
    change (list_ascii_of_string (String "/" d)) with ("/"%char :: D').
    change (list_ascii_of_string f) with F.
    change (["/"%char] ++ ["."%char; "."%char; "/"%char] ++ F)
      with ("/"%char :: "."%char :: "."%char :: "/"%char :: F).
    change (("/"%char :: D') ++ ["/"%char] ++ F) with (("/"%char :: D') ++ "/"%char :: F).
    rewrite (normalize_dotdot S U F HSg HSs); try discriminate; try assumption; try reflexivity.
    rewrite (normalize_push D' F HFn Hfs HF1 HF2 HF3). reflexivity. }
  split; [exact Hpath|].
  intros Hin Hok. unfold delete_upload. rewrite Hpath.
  replace (existsb (String.eqb (path_join (String "/"%char d) f)) files) with true.
  - now rewrite Hok.
  - symmetry. apply existsb_exists. exists (path_join (String "/"%char d) f).
    split; [exact Hin|apply String.eqb_refl].
Qed.

(** *** Witnesses of the file endpoint properties *)

Lemma upload_then_list_witness :
  snd (upload st_hosted (mkUpload (Some "chair.glb") (base_url None "http" "shop")
                                  (Some "A") (Some "host"))) =
    UploadOk "http://shop/uploads/chair.glb" "chair.glb" /\
  exists l,
    list_uploads (base_url None "http" "shop")
      (Some (store_upload ["notes.txt"]
               (mkUpload (Some "chair.glb") (base_url None "http" "shop")
                         (Some "A") (Some "host")))) = ListOk l /\
    In (mkListed "chair.glb" "http://shop/uploads/chair.glb") l.
Proof.
  assert (H : snd (upload st_hosted (mkUpload (Some "chair.glb") (base_url None "http" "shop")
                                              (Some "A") (Some "host"))) =
              UploadOk "http://shop/uploads/chair.glb" "chair.glb")
    by (vm_compute; reflexivity).
  split; [exact H|].
  destruct (upload_then_list st_hosted ["notes.txt"] None "http" "shop" "chair.glb"
              (Some "A") (Some "host") _ _ H) as (_ & _ & l & Hl & Hiff).
  exists l. split; [exact Hl|]. apply Hiff. exists "chair"%string. left. reflexivity.
Defined.

Lemma delete_all_uploads_answer_witness :
  ["a.glb"; "b.gltf"]%string <> [] /\
  Permutation ["b.gltf"; "a.glb"]%string (filter is_model_file ["a.glb"; "b.gltf"]%string) /\
  delete_all_uploads (Some ["a.glb"; "b.gltf"]%string) (fun f => String.eqb f "a.glb")
    ["b.gltf"; "a.glb"]%string = [DeleteAllDone200 1 1].
Proof.
  assert (H1 : ["a.glb"; "b.gltf"]%string <> []) by discriminate.
  assert (H2 : Permutation ["b.gltf"; "a.glb"]%string
                 (filter is_model_file ["a.glb"; "b.gltf"]%string))
    by (vm_compute; apply perm_swap).
  split; [exact H1|]. split; [exact H2|].
  rewrite (delete_all_uploads_answer _ _ (fun f => String.eqb f "a.glb") H1 H2).
  vm_compute. reflexivity.
Defined.

Lemma delete_upload_parent_witness :
  (exists d, "/srv/app" = String "/"%char d) /\
  ".env" <> ""%string /\ ".env" <> "."%string /\ ".env" <> ".."%string /\
  ~ In "/"%char (list_ascii_of_string ".env") /\
  delete_upload (upload_dir "/srv/app") ["/srv/app/.env"]%string (fun _ => true) "../.env" =
    ([], Deleted200 "../.env").
Proof.
  assert (Hd : exists d, "/srv/app" = String "/"%char d) by (eexists; reflexivity).
  assert (H0 : ".env" <> ""%string) by discriminate.
  assert (H1 : ".env" <> "."%string) by discriminate.
  assert (H2 : ".env" <> ".."%string) by discriminate.
  assert (H3 : ~ In "/"%char (list_ascii_of_string ".env")) by (simpl; intuition discriminate).
  destruct (delete_upload_parent "/srv/app" ".env" ["/srv/app/.env"]%string (fun _ => true)
              Hd H0 H1 H2 H3) as [_ Hdel].
  assert (Hin : In (path_join "/srv/app" ".env") ["/srv/app/.env"]%string)
    by (vm_compute; left; reflexivity).
  split; [exact Hd|]. split; [exact H0|]. split; [exact H1|]. split; [exact H2|].
  split; [exact H3|].
  change "../.env"%string with ("../" ++ ".env")%string. rewrite (Hdel Hin eq_refl).
  vm_compute. reflexivity.
Defined.

(** ** Socket handlers: host announcements *)

Lemma cancel_loop_msgs (c : conn) (host : option conn) entries pr tms pr' tms' out :
  cancel_loop c host entries pr tms = (pr', tms', out) ->
  forall em, In em out -> exists rid, em = (ToRoom host, HostRequestCancelled rid).
Proof.
  revert pr tms pr' tms' out.
  induction entries as [|[rid p] rest IH]; simpl; intros pr tms pr' tms' out Hc em Hin.
  - injection Hc as _ _ <-. destruct Hin.
  - destruct (String.eqb (pr_requester p) c).
    + destruct (cancel_loop c host rest (js_delete rid pr) (clearTimeout (pr_timeout p) tms))
        as [[pr1 tms1] out1] eqn:E.
      injection Hc as _ _ <-. apply in_app_iff in Hin as [Hin|Hin].
      * destruct (js_truthy host); [|destruct Hin].
        destruct Hin as [<-|[]]. now exists rid.
      * exact (IH _ _ _ _ _ E em Hin).
    + exact (IH _ _ _ _ _ Hc em Hin).
Qed.

Lemma cancel_loop_host (c : conn) (s : state) :
  hostSocketId (fst (cancel_host_request s c)) = hostSocketId s /\
  forall em, In em (snd (cancel_host_request s c)) ->
    exists rid, em = (ToRoom (hostSocketId s), HostRequestCancelled rid).
Proof.
  unfold cancel_host_request.
  destruct (cancel_loop c (hostSocketId s) (pendingRequests s) (pendingRequests s) (timers s))
    as [[pr tms] out] eqn:E.
  split; [reflexivity|]. exact (cancel_loop_msgs _ _ _ _ _ _ _ _ E).
Qed.

Lemma disconnect_host_msgs (s : state) (c : conn) :
  (is_host (hostSocketId s) c = true ->
     hostSocketId (fst (disconnect s c)) = None /\
     snd (disconnect s c) = [(ToAll, HostChanged None)]) /\
  (is_host (hostSocketId s) c = false ->
     hostSocketId (fst (disconnect s c)) = hostSocketId s /\ snd (disconnect s c) = []).
Proof.
  unfold disconnect. simpl. split; intros Hh; rewrite Hh; simpl;
    match goal with |- context [disconnect_loop ?a ?b ?c ?d] =>
      destruct (disconnect_loop a b c d) end; simpl; split; reflexivity.
Qed.

Ltac hc_finish :=
  unfold set_host, set_requests, set_buffers; simpl; split;
  [ intros ?t ?h ?Hin; simpl in Hin;
    repeat match type of Hin with _ \/ _ => destruct Hin as [Hin|Hin] end;
    try contradiction; try discriminate Hin;
    injection Hin as <- <-; split; reflexivity
  | intros ?Hne; first [ exfalso; apply Hne; reflexivity | simpl; left; reflexivity ] ].

(** Every [host-changed] the server emits goes to all connections
    ([io.emit]) and carries the host the server holds after the handler;
    and no handler or timer changes [hostSocketId] without emitting such a
    [host-changed] (the uploads, [deny-host], [cancel-host-request], the
    relays and a connection never change it). *)
Theorem host_changed_announced (s : state) (e : event) (s' : state) (out : list emission) :
  step s e = Some (s', out) ->
  (forall t h, In (t, HostChanged h) out -> t = ToAll /\ h = hostSocketId s') /\
  (hostSocketId s' <> hostSocketId s -> In (ToAll, HostChanged (hostSocketId s')) out).
Proof.
  intros Hs. destruct e as [c|c|c|c|c rid|c rid|c|c|c k p|c|c p|r|d|h]; simpl in Hs;
    try (unfold on_socket in Hs; destruct (connected s c); [|discriminate];
         apply some_inj in Hs).
  - destruct (valid_sid c && negb (connected s c)); [|discriminate].
    injection Hs as <- <-. hc_finish.
  - destruct (is_host (hostSocketId s) c) eqn:Eh.
    + destruct (proj1 (disconnect_host_msgs s c) Eh) as [H1 H2].
      rewrite Hs in H1, H2. simpl in H1, H2. subst out. rewrite H1. hc_finish.
    + destruct (proj2 (disconnect_host_msgs s c) Eh) as [H1 H2].
      rewrite Hs in H1, H2. simpl in H1, H2. subst out. rewrite H1. hc_finish.
  - unfold register_host in Hs. injection Hs as <- <-. hc_finish.
  - unfold request_host in Hs.
    destruct (negb (js_truthy (hostSocketId s))); [injection Hs as <- <-; hc_finish|].
    destruct (is_host (hostSocketId s) c); injection Hs as <- <-; hc_finish.
  - unfold release_host in Hs.
    destruct (js_get (pendingRequests s) rid); injection Hs as <- <-; hc_finish.
  - unfold deny_host in Hs.
    destruct (js_get (pendingRequests s) rid); injection Hs as <- <-; hc_finish.
  - destruct (cancel_loop_host c s) as [H1 H2]. rewrite Hs in H1, H2. simpl in H1, H2.
    split.
    + intros t h Hin. destruct (H2 _ Hin) as [rid Heq]. discriminate.
    + intros Hne. rewrite H1 in Hne. contradiction.
  - unfold give_up_host in Hs.
    destruct (is_host (hostSocketId s) c); injection Hs as <- <-; hc_finish.
  - unfold relay in Hs.
    destruct k; try destruct (is_host (hostSocketId s) c); injection Hs as <- <-; hc_finish.
  - unfold product_upload_complete in Hs.
    destruct (js_get (hostUploadBuffers s) c);
      try destruct (0 <? length v)%nat; injection Hs as <- <-; hc_finish.
  - unfold browse_selection in Hs.
    destruct (is_host (hostSocketId s) c); injection Hs as <- <-; hc_finish.
  - injection Hs as <- <-. pose proof (upload_frame s r) as [H1 _]. simpl in H1.
    split; [intros ? ? []|]. intros Hne. exfalso. exact (Hne H1).
  - injection Hs as <- <-. hc_finish.
  - destruct (assocN h (timers s)) as [tm|]; [|discriminate].
    destruct (tm_due tm <=? now s)%N; [|discriminate].
    apply some_inj in Hs. unfold auto_transfer in Hs. injection Hs as <- <-. hc_finish.
Qed.

(** ** Socket handlers: answering, denying and cancelling requests *)

Lemma clearTimeout_gone (h : N) (tms : list (N * timer)) : assocN h (clearTimeout h tms) = None.
Proof.
  unfold clearTimeout. apply (assocN_filter_none (fun k => negb (N.eqb k h))).
  now rewrite N.eqb_refl.
Qed.

Lemma drop_handles_gone (c : conn) (l : list (request_id * pending)) tms rid p :
  In (rid, p) l -> pr_requester p = c ->
  assocN (pr_timeout p) (drop_handles (removed_handles c l) tms) = None.
Proof.
  intros Hin Hreq. unfold drop_handles.
  apply (assocN_filter_none (fun h => negb (existsb (N.eqb h) (removed_handles c l)))).
  apply negb_false_iff, existsb_exists. exists (pr_timeout p). split; [|apply N.eqb_refl].
  unfold removed_handles, removed.
  apply (in_map (fun kv => pr_timeout (snd kv)) _ (rid, p)). apply filter_In.
  split; [exact Hin|]. simpl. now apply String.eqb_eq.
Qed.

(** [release-host] is not restricted to the host: from a reachable state,
    any connected socket that names a pending request makes its requester
    (a connected socket) the host, announces it to all, removes that request
    alone and clears its timer. *)
Theorem release_host_any (s : state) (c : conn) (rid : string) (p : pending) :
  reachable s -> connected s c = true -> assoc rid (pendingRequests s) = Some p ->
  exists s',
    step s (ReleaseHost c rid) = Some (s', [(ToAll, HostChanged (Some (pr_requester p)))]) /\
    hostSocketId s' = Some (pr_requester p) /\ In (pr_requester p) (sockets s') /\
    assoc rid (pendingRequests s') = None /\
    (forall r, r <> rid -> assoc r (pendingRequests s') = assoc r (pendingRequests s)) /\
    assocN (pr_timeout p) (timers s') = None /\
    hostUploadBuffers s' = hostUploadBuffers s /\ sockets s' = sockets s.
Proof.
  intros Hr Hc Ha. pose proof (reachable_inv s Hr) as I.
  simpl. unfold on_socket. rewrite Hc. unfold release_host, js_get. rewrite Ha.
  eexists. split; [reflexivity|]. simpl.
  split; [reflexivity|].
  split; [exact (inv_req s I rid p (assoc_In _ _ _ Ha))|].
  split; [apply assoc_js_delete_same|].
  split; [intros r Hne; now apply assoc_js_delete_other|].
  split; [apply clearTimeout_gone|]. split; reflexivity.
Qed.

(** [deny-host] is not restricted to the host either: from a reachable
    state, any connected socket that names a pending request sends
    [transfer-denied] to its requester alone, removes that request alone and
    clears its timer; the host does not change. *)
Theorem deny_host_any (s : state) (c : conn) (rid : string) (p : pending) :
  reachable s -> connected s c = true -> assoc rid (pendingRequests s) = Some p ->
  exists s',
    step s (DenyHost c rid) = Some (s', [(ToRoom (Some (pr_requester p)), TransferDenied rid)]) /\
    recipients (sockets s') (ToRoom (Some (pr_requester p))) = [pr_requester p] /\
    hostSocketId s' = hostSocketId s /\
    assoc rid (pendingRequests s') = None /\
    (forall r, r <> rid -> assoc r (pendingRequests s') = assoc r (pendingRequests s)) /\
    assocN (pr_timeout p) (timers s') = None.
Proof.
  intros Hr Hc Ha. pose proof (reachable_inv s Hr) as I.
  simpl. unfold on_socket. rewrite Hc. unfold deny_host, js_get. rewrite Ha.
  eexists. split; [reflexivity|]. simpl.
  split; [apply filter_eqb_single;
          [exact (inv_nodup s I)|exact (inv_req s I rid p (assoc_In _ _ _ Ha))]|].
  split; [reflexivity|].
  split; [apply assoc_js_delete_same|].
  split; [intros r Hne; now apply assoc_js_delete_other|].
  apply clearTimeout_gone.
Qed.


(** [cancel-host-request] while there is no host (the host gave up or left
    with requests pending) removes the requester's pending requests and
    clears their timers, but notifies nobody. *)
Theorem cancel_without_host (s s' : state) (B : conn) (out : list emission) :
  reachable s -> hostSocketId s = None ->
  step s (CancelHostRequest B) = Some (s', out) ->
  out = [] /\ hostSocketId s' = None /\ pendingRequests s' = kept B (pendingRequests s) /\
  (forall rid p, In (rid, p) (pendingRequests s) -> pr_requester p = B ->
     assocN (pr_timeout p) (timers s') = None).
Proof.
  intros Hr Hh Hs. pose proof (reachable_inv s Hr) as I.
  simpl in Hs. unfold on_socket in Hs. destruct (connected s B); [|discriminate].
  apply some_inj in Hs. rewrite (cancel_state s B I) in Hs. rewrite Hh in Hs.
  injection Hs as <- <-. simpl.
  split; [reflexivity|]. split; [exact Hh|]. split; [reflexivity|].
  intros rid p Hin Hreq. exact (drop_handles_gone B _ _ rid p Hin Hreq).
Qed.

(** ** Reachable states: host and requests *)

(** In every reachable state the host, when there is one, is a connected
    socket with a non-empty id that is not an [Object.prototype] name: the
    server never keeps (or announces) a host that has left. *)
Theorem reachable_host_connected (s : state) (h : conn) :
  reachable s -> hostSocketId s = Some h ->
  In h (sockets s) /\ h <> ""%string /\ is_proto_prop h = false.
Proof.
  intros Hr Hh. pose proof (reachable_inv s Hr) as I.
  pose proof (inv_host s I h Hh) as Hin. split; [exact Hin|].
  pose proof (inv_valid s I h Hin) as Hv. unfold valid_sid in Hv.
  apply andb_true_iff in Hv as [H1 H2]. apply negb_true_iff in H1, H2.
  split; [apply String.eqb_neq; exact H1|exact H2].
Qed.

(** In every reachable state the pending requests have distinct ids and
    connected requesters; each has its own active timer, which will hand the
    role to that requester for that request; and every active timer belongs
    to a pending request in this way (no timer outlives its request). *)
Theorem reachable_requests_timers (s : state) :
  reachable s ->
  NoDup (map fst (pendingRequests s)) /\
  (forall rid p, In (rid, p) (pendingRequests s) ->
     In (pr_requester p) (sockets s) /\
     exists due, assocN (pr_timeout p) (timers s) = Some (mkTimer due (pr_requester p) rid)) /\
  (forall h tm, In (h, tm) (timers s) ->
     assoc (tm_request tm) (pendingRequests s) = Some (mkPending h (tm_requester tm))).
Proof.
  intros Hr. pose proof (reachable_inv s Hr) as I.
  split; [exact (inv_keys s I)|]. split; [|exact (inv_back s I)].
  intros rid p Hin. split; [exact (inv_req s I _ _ Hin)|exact (inv_timer s I _ _ Hin)].
Qed.

(** ** Reachable states: the upload buffers *)

Lemma js_set_split {V} (k : string) (v old : V) (b : list (string * V)) :
  assoc k b = Some old ->
  exists b1 b2, b = b1 ++ (k, old) :: b2 /\ js_set k v b = b1 ++ (k, v) :: b2.
Proof.
  induction b as [|[k0 v0] b IH]; simpl; [discriminate|].
  destruct (String.eqb k0 k) eqn:E; intros Ha.
  - injection Ha as ->. apply String.eqb_eq in E. subst k0. now exists [], b.
  - destruct (IH Ha) as (b1 & b2 & -> & ->). now exists ((k0, v0) :: b1), b2.
Qed.

Lemma assoc_none_keys {V} (k : string) (b : list (string * V)) :
  assoc k b = None -> ~ In k (map fst b).
Proof.
  induction b as [|[k0 v0] b IH]; simpl; [tauto|].
  destruct (String.eqb k0 k) eqn:E; [discriminate|]. apply String.eqb_neq in E.
  intros Ha [Heq|Hin]; [congruence|exact (IH Ha Hin)].
Qed.

Lemma js_get_absent_inv {V} (o : list (string * V)) k :
  js_get o k = Absent -> assoc k o = None /\ is_proto_prop k = false.
Proof.
  unfold js_get. destruct (assoc k o); [discriminate|].
  destruct (is_proto_prop k); [discriminate|]. now split.
Qed.

Lemma part_ids_mid b1 k v b2 :
  part_ids (b1 ++ (k, v) :: b2) = part_ids b1 ++ map part_id v ++ part_ids b2.
Proof. unfold part_ids. rewrite flat_map_app. reflexivity. Qed.

Lemma part_ids_snoc b k v : part_ids (b ++ [(k, v)]) = part_ids b ++ map part_id v.
Proof. unfold part_ids. rewrite flat_map_app. simpl. now rewrite app_nil_r. Qed.

Lemma BufInv_init : BufInv init_state.
Proof.
  constructor; simpl; try contradiction; [constructor|constructor].
Qed.

Lemma BufInv_frame (s s' : state) :
  BufInv s -> hostUploadBuffers s' = hostUploadBuffers s ->
  (uuid_seed s <= uuid_seed s')%N -> BufInv s'.
Proof.
  intros B Hb Hs. destruct B as [K P S F D]. constructor; rewrite Hb; auto.
  intros x Hx. destruct (F x Hx) as (m & Hm & ->). exists m. split; [lia|reflexivity].
Qed.

Lemma fresh_part_id (s : state) : BufInv s -> ~ In (uuidv4 (uuid_seed s)) (part_ids (hostUploadBuffers s)).
Proof.
  intros B Hin. destruct (binv_fresh s B _ Hin) as (m & Hm & Heq).
  apply uuidv4_inj in Heq. lia.
Qed.

(** [hostUploadBuffers[k].push(entry)] on an existing buffer. *)
Lemma BufInv_append (s s' : state) (k : conn) (old : list part) (u n : string) :
  BufInv s -> assoc k (hostUploadBuffers s) = Some old ->
  hostUploadBuffers s' =
    js_set k (old ++ [mkPart u n (uuidv4 (uuid_seed s)) k]) (hostUploadBuffers s) ->
  uuid_seed s' = N.succ (uuid_seed s) -> BufInv s'.
Proof.
  intros B Ha Hb Hs. pose proof (fresh_part_id s B) as Hfr.
  set (e := mkPart u n (uuidv4 (uuid_seed s)) k) in *.
  destruct (js_set_split k (old ++ [e]) old _ Ha) as (b1 & b2 & Hb0 & Hset).
  rewrite Hset in Hb. destruct B as [K P S F D].
  rewrite Hb0 in K, P, S, F, D, Hfr. rewrite part_ids_mid in F, D, Hfr.
  constructor; rewrite Hb.
  - rewrite map_app in K |- *. exact K.
  - intros c l Hin. apply in_app_iff in Hin as [Hin|[Heq|Hin]].
    + apply (P c l). apply in_app_iff. now left.
    + injection Heq as <- _. apply (P k old). apply in_app_iff. right. now left.
    + apply (P c l). apply in_app_iff. right. now right.
  - intros c l p Hin Hp. apply in_app_iff in Hin as [Hin|[Heq|Hin]].
    + apply (S c l p); [apply in_app_iff; now left|exact Hp].
    + injection Heq as <- <-. apply in_app_iff in Hp as [Hp|[<-|[]]]; [|reflexivity].
      apply (S k old p); [apply in_app_iff; right; now left|exact Hp].
    + apply (S c l p); [apply in_app_iff; right; now right|exact Hp].
  - rewrite part_ids_mid. intros x Hx.
    assert (Hx' : In x (part_ids b1 ++ map part_id old ++ part_ids b2) \/
                  x = uuidv4 (uuid_seed s)).
    { unfold e in Hx. rewrite map_app in Hx. simpl in Hx.
      repeat rewrite in_app_iff in Hx. repeat rewrite in_app_iff.
      simpl in Hx. intuition. }
    rewrite Hs. destruct Hx' as [Hx' | ->].
    + destruct (F x Hx') as (m & Hm & ->). exists m. split; [lia|reflexivity].
    + exists (uuid_seed s). split; [lia|reflexivity].
  - rewrite part_ids_mid, map_app. simpl.
    rewrite <- app_assoc. simpl. rewrite app_assoc.
    apply (Permutation_NoDup (Permutation_middle _ _ _)).
    constructor.
    + rewrite <- app_assoc. exact Hfr.
    + rewrite <- app_assoc. exact D.
Qed.

(** [hostUploadBuffers[k] = [entry]] for a new key. *)
Lemma BufInv_new (s s' : state) (k : conn) (u n : string) :
  BufInv s -> assoc k (hostUploadBuffers s) = None -> is_proto_prop k = false ->
  hostUploadBuffers s' =
    js_set k [mkPart u n (uuidv4 (uuid_seed s)) k] (hostUploadBuffers s) ->
  uuid_seed s' = N.succ (uuid_seed s) -> BufInv s'.
Proof.
  intros B Ha Hp Hb Hs. pose proof (fresh_part_id s B) as Hfr.
  rewrite (js_set_absent _ _ _ Ha) in Hb. destruct B as [K P S F D].
  constructor; rewrite Hb.
  - rewrite map_app. apply NoDup_snoc; [exact K|exact (assoc_none_keys _ _ Ha)].
  - intros c l Hin. apply in_app_iff in Hin as [Hin|[Heq|[]]]; [exact (P c l Hin)|].
    injection Heq as <- _. exact Hp.
  - intros c l p Hin Hq. apply in_app_iff in Hin as [Hin|[Heq|[]]]; [exact (S c l p Hin Hq)|].
    injection Heq as <- <-. destruct Hq as [<-|[]]. reflexivity.
  - rewrite part_ids_snoc. intros x Hx. rewrite Hs. apply in_app_iff in Hx as [Hx|[<-|[]]].
    + destruct (F x Hx) as (m & Hm & ->). exists m. split; [lia|reflexivity].
    + exists (uuid_seed s). split; [lia|reflexivity].
  - rewrite part_ids_snoc. simpl. apply NoDup_snoc; [exact D|exact Hfr].
Qed.

(** [hostUploadBuffers[k] = []] after a flush. *)
Lemma BufInv_flush (s s' : state) (k : conn) (old : list part) :
  BufInv s -> assoc k (hostUploadBuffers s) = Some old ->
  hostUploadBuffers s' = js_set k [] (hostUploadBuffers s) ->
  uuid_seed s' = uuid_seed s -> BufInv s'.
Proof.
  intros B Ha Hb Hs.
  destruct (js_set_split k [] old _ Ha) as (b1 & b2 & Hb0 & Hset).
  rewrite Hset in Hb. destruct B as [K P S F D].
  rewrite Hb0 in K, P, S, F, D. rewrite part_ids_mid in F, D.
  constructor; rewrite Hb.
  - rewrite map_app in K |- *. exact K.
  - intros c l Hin. apply in_app_iff in Hin as [Hin|[Heq|Hin]].
    + apply (P c l). apply in_app_iff. now left.
    + injection Heq as <- _. apply (P k old). apply in_app_iff. right. now left.
    + apply (P c l). apply in_app_iff. right. now right.
  - intros c l p Hin Hp. apply in_app_iff in Hin as [Hin|[Heq|Hin]].
    + apply (S c l p); [apply in_app_iff; now left|exact Hp].
    + injection Heq as _ <-. destruct Hp.
    + apply (S c l p); [apply in_app_iff; right; now right|exact Hp].
  - rewrite part_ids_mid, Hs. intros x Hx. apply F.
    simpl in Hx. repeat rewrite in_app_iff in Hx. repeat rewrite in_app_iff. tauto.
  - rewrite part_ids_mid. simpl.
    apply (NoDup_app_remove_l (map part_id old)).
    exact (Permutation_NoDup (Permutation_app_swap_app _ _ _) D).
Qed.

Ltac bframe B :=
  apply (BufInv_frame _ _ B);
  [reflexivity | unfold set_host, set_requests, set_buffers; simpl; lia].

Lemma step_BufInv (s : state) (e : event) (s' : state) (out : list emission) :
  BufInv s -> step s e = Some (s', out) -> BufInv s'.
Proof.
  intros B Hs. destruct e as [c|c|c|c|c rid|c rid|c|c|c k p|c|c p|r|d|h]; simpl in Hs;
    try (unfold on_socket in Hs; destruct (connected s c); [|discriminate];
         apply some_inj in Hs).
  - destruct (valid_sid c && negb (connected s c)); [|discriminate].
    injection Hs as <- <-. bframe B.
  - unfold disconnect in Hs. simpl in Hs.
    destruct (is_host (hostSocketId s) c); simpl in Hs;
      match type of Hs with context [disconnect_loop ?a ?b ?c ?d] =>
        destruct (disconnect_loop a b c d) end;
      injection Hs as <- <-; bframe B.
  - unfold register_host in Hs. injection Hs as <- <-. bframe B.
  - unfold request_host in Hs.
    destruct (negb (js_truthy (hostSocketId s))); [injection Hs as <- <-; bframe B|].
    destruct (is_host (hostSocketId s) c); injection Hs as <- <-; bframe B.
  - unfold release_host in Hs.
    destruct (js_get (pendingRequests s) rid); injection Hs as <- <-; bframe B.
  - unfold deny_host in Hs.
    destruct (js_get (pendingRequests s) rid); injection Hs as <- <-; bframe B.
  - unfold cancel_host_request in Hs.
    destruct (cancel_loop c (hostSocketId s) (pendingRequests s) (pendingRequests s) (timers s))
      as [[pr tms] o].
    injection Hs as <- <-. bframe B.
  - unfold give_up_host in Hs.
    destruct (is_host (hostSocketId s) c); injection Hs as <- <-; bframe B.
  - unfold relay in Hs.
    destruct k; try destruct (is_host (hostSocketId s) c); injection Hs as <- <-; bframe B.
  - unfold product_upload_complete in Hs.
    destruct (js_get (hostUploadBuffers s) c) as [l| |] eqn:Eg.
    + destruct (0 <? length l)%nat; injection Hs as <- <-; [|bframe B].
      apply (BufInv_flush s _ c l B (js_get_own _ _ _ Eg)); reflexivity.
    + injection Hs as <- <-. bframe B.
    + injection Hs as <- <-. bframe B.
  - unfold browse_selection in Hs.
    destruct (is_host (hostSocketId s) c); injection Hs as <- <-; bframe B.
  - injection Hs as <- <-. unfold upload.
    destruct (up_file r) as [name|]; [|exact B].
    destruct (up_socket_id r) as [id|]; [|exact B].
    match goal with |- BufInv (fst (if ?b then _ else _)) => destruct b end; [|exact B].
    destruct (js_get (hostUploadBuffers s) id) as [l| |] eqn:Eg; simpl.
    + eapply BufInv_append; [exact B|exact (js_get_own _ _ _ Eg)|reflexivity|reflexivity].
    + bframe B.
    + destruct (js_get_absent_inv _ _ Eg) as [Ha Hp].
      eapply BufInv_new; [exact B|exact Ha|exact Hp|reflexivity|reflexivity].
  - injection Hs as <- <-. bframe B.
  - destruct (assocN h (timers s)) as [tm|]; [|discriminate].
    destruct (tm_due tm <=? now s)%N; [|discriminate].
    apply some_inj in Hs. unfold auto_transfer in Hs. injection Hs as <- <-. bframe B.
Qed.

Lemma run_BufInv (s : state) (es : list event) (s' : state) (out : list emission) :
  BufInv s -> run s es = Some (s', out) -> BufInv s'.
Proof.
  revert s out. induction es as [|e es IH]; simpl; intros s out B Hr.
  - injection Hr as <- _. exact B.
  - destruct (step s e) as [[s1 o1]|] eqn:E; [|discriminate].
    destruct (run s1 es) as [[s2 o2]|] eqn:E2; [|discriminate].
    injection Hr as <- _. exact (IH s1 o2 (step_BufInv _ _ _ _ B E) E2).
Qed.

Lemma reachable_BufInv (s : state) : reachable s -> BufInv s.
Proof. intros (es & out & Hr). exact (run_BufInv _ _ _ _ BufInv_init Hr). Qed.

(** In every reachable state the upload buffers have distinct keys, none
    of them an [Object.prototype] name; every buffered part carries as
    [sender] the key of the buffer that holds it; and no part id occurs
    twice across all buffers. *)
Theorem buffers_wellformed (s : state) :
  reachable s ->
  NoDup (map fst (hostUploadBuffers s)) /\
  (forall c l, In (c, l) (hostUploadBuffers s) -> is_proto_prop c = false) /\
  (forall c l p, In (c, l) (hostUploadBuffers s) -> In p l -> part_sender p = c) /\
  NoDup (part_ids (hostUploadBuffers s)).
Proof.
  intros Hr. destruct (reachable_BufInv s Hr) as [K P S F D]. auto.
Qed.

Lemma noproto_assoc {V} (b : list (string * V)) (k : string) :
  (forall c l, In (c, l) b -> is_proto_prop c = false) -> is_proto_prop k = true ->
  assoc k b = None.
Proof.
  intros Hb Hk. destruct (assoc k b) as [v|] eqn:E; [|reflexivity].
  apply assoc_In in E. rewrite (Hb _ _ E) in Hk. discriminate.
Qed.

(** A host upload whose [x-socket-id] header is an [Object.prototype] name
    (e.g. "constructor") is stored by multer but answered with 500: the
    handler finds the inherited value truthy, calls its missing [push] and
    throws; no upload buffer changes and the host stays the same. *)
Theorem upload_proto_sid_500 (s : state) (dir : list string) (base name sid : string) :
  reachable s -> is_proto_prop sid = true ->
  In name (store_upload dir (mkUpload (Some name) base (Some sid) (Some "host"))) /\
  snd (upload s (mkUpload (Some name) base (Some sid) (Some "host"))) = Status500 /\
  hostUploadBuffers (fst (upload s (mkUpload (Some name) base (Some sid) (Some "host")))) =
    hostUploadBuffers s /\
  hostSocketId (fst (upload s (mkUpload (Some name) base (Some sid) (Some "host")))) =
    hostSocketId s.
Proof.
  intros Hr Hp. pose proof (reachable_BufInv s Hr) as B.
  assert (Hne : String.eqb sid "" = false).
  { destruct (String.eqb_spec sid ""); [subst sid; discriminate|reflexivity]. }
  assert (Hget : js_get (hostUploadBuffers s) sid = Inherited sid).
  { unfold js_get. rewrite (noproto_assoc _ sid (binv_noproto s B) Hp), Hp. reflexivity. }
  split; [apply store_upload_In; reflexivity|].
  unfold upload. simpl. rewrite Hne. simpl. rewrite Hget. simpl. now repeat split.
Qed.




(** ** Witnesses of the socket handler properties *)

Lemma reachable_after (es : list event) : run init_state es <> None -> reachable (st_after es).
Proof.
  unfold st_after. destruct (run init_state es) as [[s o]|] eqn:E; intros Hn; [|congruence].
  exists es, o. exact E.
Qed.

Lemma host_changed_announced_witness :
  match step st_requested (ReleaseHost "A" (uuidv4 0)) with
  | Some (s', out) =>
      hostSocketId s' <> hostSocketId st_requested /\
      In (ToAll, HostChanged (hostSocketId s')) out
  | None => False
  end.
Proof.
  destruct (step st_requested (ReleaseHost "A" (uuidv4 0))) as [[s' out]|] eqn:E;
    [|vm_compute in E; discriminate].
  assert (Hne : hostSocketId s' <> hostSocketId st_requested)
    by (vm_compute in E; injection E as <- _; vm_compute; discriminate).
  split; [exact Hne|]. exact (proj2 (host_changed_announced _ _ _ _ E) Hne).
Defined.

Lemma release_host_any_witness :
  reachable st_requested /\ connected st_requested "B" = true /\
  assoc (uuidv4 0) (pendingRequests st_requested) = Some (mkPending 0 "B") /\
  exists s', step st_requested (ReleaseHost "B" (uuidv4 0)) =
               Some (s', [(ToAll, HostChanged (Some "B"))]) /\
             hostSocketId s' = Some "B"%string.
Proof.
  assert (Hr : reachable st_requested) by (apply reachable_after; vm_compute; discriminate).
  assert (Hc : connected st_requested "B" = true) by (vm_compute; reflexivity).
  assert (Ha : assoc (uuidv4 0) (pendingRequests st_requested) = Some (mkPending 0 "B"))
    by (vm_compute; reflexivity).
  split; [exact Hr|]. split; [exact Hc|]. split; [exact Ha|].
  destruct (release_host_any _ _ _ _ Hr Hc Ha) as (s' & H1 & H2 & _).
  exists s'. split; [exact H1|exact H2].
Defined.

Lemma deny_host_any_witness :
  reachable st_requested /\ connected st_requested "A" = true /\
  assoc (uuidv4 0) (pendingRequests st_requested) = Some (mkPending 0 "B") /\
  exists s', step st_requested (DenyHost "A" (uuidv4 0)) =
               Some (s', [(ToRoom (Some "B"), TransferDenied (uuidv4 0))]) /\
             recipients (sockets s') (ToRoom (Some "B")) = ["B"%string].
Proof.
  assert (Hr : reachable st_requested) by (apply reachable_after; vm_compute; discriminate).
  assert (Hc : connected st_requested "A" = true) by (vm_compute; reflexivity).
  assert (Ha : assoc (uuidv4 0) (pendingRequests st_requested) = Some (mkPending 0 "B"))
    by (vm_compute; reflexivity).
  split; [exact Hr|]. split; [exact Hc|]. split; [exact Ha|].
  destruct (deny_host_any _ _ _ _ Hr Hc Ha) as (s' & H1 & H2 & _).
  exists s'. split; [exact H1|exact H2].
Defined.


Lemma cancel_without_host_witness :
  reachable st_given_up /\ hostSocketId st_given_up = None /\
  pendingRequests st_given_up <> [] /\
  match step st_given_up (CancelHostRequest "B") with
  | Some (s', out) => out = [] /\ pendingRequests s' = []
  | None => False
  end.
Proof.
  assert (Hr : reachable st_given_up) by (apply reachable_after; vm_compute; discriminate).
  assert (Hh : hostSocketId st_given_up = None) by (vm_compute; reflexivity).
  split; [exact Hr|]. split; [exact Hh|]. split; [vm_compute; discriminate|].
  destruct (step st_given_up (CancelHostRequest "B")) as [[s' out]|] eqn:E;
    [|vm_compute in E; discriminate].
  destruct (cancel_without_host _ _ _ _ Hr Hh E) as (Ho & _ & Hp & _).
  split; [exact Ho|]. rewrite Hp. vm_compute. reflexivity.
Defined.

Lemma reachable_host_connected_witness :
  reachable st_hosted /\ hostSocketId st_hosted = Some "A"%string /\
  In "A"%string (sockets st_hosted).
Proof.
  assert (Hr : reachable st_hosted) by (apply reachable_after; vm_compute; discriminate).
  assert (Hh : hostSocketId st_hosted = Some "A"%string) by (vm_compute; reflexivity).
  split; [exact Hr|]. split; [exact Hh|].
  exact (proj1 (reachable_host_connected _ _ Hr Hh)).
Defined.

Lemma reachable_requests_timers_witness :
  reachable st_requested /\
  exists due, assocN 0 (timers st_requested) = Some (mkTimer due "B" (uuidv4 0)).
Proof.
  assert (Hr : reachable st_requested) by (apply reachable_after; vm_compute; discriminate).
  split; [exact Hr|].
  destruct (reachable_requests_timers _ Hr) as (_ & Hp & _).
  assert (Hin : In (uuidv4 0, mkPending 0 "B") (pendingRequests st_requested))
    by (vm_compute; left; reflexivity).
  exact (proj2 (Hp _ _ Hin)).
Defined.

Lemma buffers_wellformed_witness :
  reachable st_buffered /\ length (part_ids (hostUploadBuffers st_buffered)) = 2 /\
  NoDup (part_ids (hostUploadBuffers st_buffered)).
Proof.
  assert (Hr : reachable st_buffered) by (apply reachable_after; vm_compute; discriminate).
  split; [exact Hr|]. split; [vm_compute; reflexivity|].
  exact (proj2 (proj2 (proj2 (buffers_wellformed _ Hr)))).
Defined.

Lemma upload_proto_sid_500_witness :
  reachable st_hosted /\ is_proto_prop "constructor" = true /\
  snd (upload st_hosted (mkUpload (Some "chair.glb") "http://shop" (Some "constructor")
                                  (Some "host"))) = Status500.
Proof.
  assert (Hr : reachable st_hosted) by (apply reachable_after; vm_compute; discriminate).
  assert (Hp : is_proto_prop "constructor" = true) by reflexivity.
  split; [exact Hr|]. split; [exact Hp|].
  exact (proj1 (proj2 (upload_proto_sid_500 _ [] "http://shop" "chair.glb" _ Hr Hp))).
Defined.

